(** * The in-memory vector store of [core/Chroma.py]

    A shallow embedding of the classes [ConfigSingleton], [CosineSimilarity],
    [VectorItem] and [ChromaVectorDB], followed by the properties of the
    store that its specification states.

    Conventions.
    - A numpy vector is a list of reals: for what the store does with
      scores, which is to compare them and to sort by them, double
      precision numbers are idealised as elements of [R].  The arithmetic
      of the cosine strategy itself is modelled on the binary64 numbers of
      IEEE 754, in [Float64].
    - Python integers are [Z].
    - The dictionary [_items] is an association list in insertion order,
      which is the order in which Python iterates over a [dict].
    - A method is a computation over the [World]: the store object, the
      configuration object it references, and the events handed to its
      observers.  A computation ends by returning a value or by raising an
      exception, and keeps in both cases the mutations done so far. *)

From Stdlib Require Import Floats.
From Stdlib Require Import String Ascii List ZArith Lia Bool.
From Stdlib Require Import Reals Lra.
From Stdlib Require Import Sorted Permutation.
From Stdlib Require Import DecimalString.
Import ListNotations.

Open Scope string_scope.
Open Scope list_scope.

(** ** Python values *)

Definition Vector := list R.

Inductive PyValue :=
| PyStr (s : string)
| PyInt (z : Z)
| PyBool (b : bool).

Definition Metadata := list (string * PyValue).

(** [len(v)] as a Python integer. *)
Definition len {A : Type} (l : list A) : Z := Z.of_nat (length l).

(** [f"{n}"] for an integer [n]. *)
Definition fmt (n : Z) : string := NilZero.string_of_int (Z.to_int n).

(** ** Exceptions and outcomes *)

Inductive Exception :=
| ValueError (msg : string)
| RuntimeError (msg : string)
| KeyError (key : string)
| FloatingPointError (msg : string).

(** [str(e)]: the message of the exception; a [KeyError] shows the [repr] of
    the missing key. *)
Definition str (e : Exception) : string :=
  match e with
  | ValueError msg => msg
  | RuntimeError msg => msg
  | KeyError key => ("'" ++ key ++ "'")%string
  | FloatingPointError msg => msg
  end.

Inductive Outcome (A : Type) :=
| Return (a : A)
| Raise (e : Exception).

Arguments Return {A} a.
Arguments Raise {A} e.

(** ** Insertion-ordered dictionaries with string keys *)

Module Dict.
Section Ops.
Variable V : Type.

Definition t := list (string * V).

Definition empty : t := [].

(** [d.get(k)] *)
Fixpoint get (k : string) (d : t) : option V :=
  match d with
  | [] => None
  | (k', v) :: d' => if String.eqb k' k then Some v else get k d'
  end.

(** [k in d] *)
Definition contains (k : string) (d : t) : bool :=
  match get k d with Some _ => true | None => false end.

(** [d[k] = v]: an existing key keeps its position, a new key goes last. *)
Fixpoint set (k : string) (v : V) (d : t) : t :=
  match d with
  | [] => [(k, v)]
  | (k', v') :: d' =>
      if String.eqb k' k then (k, v) :: d' else (k', v') :: set k v d'
  end.

(** Assignment to an attribute of the object stored under [k]. *)
Fixpoint mutate (k : string) (f : V -> V) (d : t) : t :=
  match d with
  | [] => []
  | (k', v') :: d' =>
      if String.eqb k' k then (k', f v') :: d' else (k', v') :: mutate k f d'
  end.

(** [del d[k]] *)
Fixpoint del (k : string) (d : t) : t :=
  match d with
  | [] => []
  | (k', v') :: d' =>
      if String.eqb k' k then d' else (k', v') :: del k d'
  end.

Definition keys (d : t) : list string := map fst d.
End Ops.
End Dict.

Arguments Dict.empty {V}.
Arguments Dict.get {V} k d.
Arguments Dict.contains {V} k d.
Arguments Dict.set {V} k v d.
Arguments Dict.mutate {V} k f d.
Arguments Dict.del {V} k d.
Arguments Dict.keys {V} d.

(** ** [ConfigSingleton] *)

Record ConfigSingleton := {
  default_embedding_dim : Z;
  similarity_threshold : R;
  max_items : Z
}.

(** [ConfigSingleton._initialize] *)
Definition ConfigSingleton_initialize : ConfigSingleton :=
  {| default_embedding_dim := 128;
     similarity_threshold := 8 / 10;
     max_items := 10000 |}.

(** [ConfigSingleton.__new__]: [instance] is the class attribute
    [_instance]; the object it holds is created on first use and returned
    as it is, with whatever values it has by then, on every later use. *)
Definition ConfigSingleton_new (instance : option ConfigSingleton)
  : ConfigSingleton :=
  match instance with
  | None => ConfigSingleton_initialize
  | Some c => c
  end.

(** ** Similarity strategies *)

(** Computations that touch no state: a value or an exception. *)
Definition obind {A B : Type} (c : Outcome A) (k : A -> Outcome B)
  : Outcome B :=
  match c with
  | Return a => k a
  | Raise e => Raise e
  end.

Fixpoint dot (a b : Vector) : R :=
  match a, b with
  | x :: a', y :: b' => (x * y + dot a' b')%R
  | _, _ => 0%R
  end.

(** [np.dot] on one-dimensional arrays: the lengths must agree. *)
Definition np_dot (a b : Vector) : Outcome R :=
  if (len a =? len b)%Z then Return (dot a b)
  else Raise (ValueError
         ("shapes (" ++ fmt (len a) ++ ",) and (" ++ fmt (len b)
          ++ ",) not aligned: " ++ fmt (len a) ++ " (dim 0) != "
          ++ fmt (len b) ++ " (dim 0)")%string).

(** [np.linalg.norm] of a one-dimensional array: [sqrt(x.dot(x))]. *)
Definition np_linalg_norm (x : Vector) : R := sqrt (dot x x).

(** [x == y] on numbers. *)
Definition Req_bool (x y : R) : bool :=
  if Req_dec_T x y then true else false.

(** [x / y].  A quotient by zero has no value in [R]; numpy signals it as a
    floating point error, and so does the model. *)
Definition np_divide (x y : R) : Outcome R :=
  if Req_bool y 0 then
    Raise (FloatingPointError "divide by zero encountered in scalar divide")
  else Return (x / y)%R.

(** The abstract base class [SimilarityStrategy]. *)
Class SimilarityStrategy := {
  calculate : Vector -> Vector -> Outcome R
}.

(** [CosineSimilarity.calculate] *)
Definition CosineSimilarity_calculate (vector1 vector2 : Vector)
  : Outcome R :=
  obind (np_dot vector1 vector2) (fun dot_product =>
  let norm1 := np_linalg_norm vector1 in
  let norm2 := np_linalg_norm vector2 in
  if Req_bool norm1 0 || Req_bool norm2 0 then Return 0%R
  else np_divide dot_product (norm1 * norm2)).

#[export] Instance CosineSimilarity : SimilarityStrategy :=
  {| calculate := CosineSimilarity_calculate |}.

(** ** Observers and events *)

(** An observer object, known by its identity. *)
Definition VectorDBObserver := nat.

(** The dictionary passed as [data] to [on_data_change]. *)
Inductive EventData :=
| AddData (id : string) (metadata : option Metadata)
| IdData (id : string)
| MessageData (message : string).

(** One run of [_notify_observers]: [on_data_change(event_type, data)] was
    called on each of [receivers], in that order. *)
Record Publication := {
  event_type : string;
  data : EventData;
  receivers : list VectorDBObserver
}.

(** ** [VectorItem] *)

Module VectorItem.
Record t := {
  id : string;
  vector : Vector;
  metadata : Metadata;
  created_at : string
}.

(** [VectorItem.__init__]; [metadata or {}] *)
Definition init (id : string) (vector : Vector)
    (metadata : option Metadata) : t :=
  {| id := id;
     vector := vector;
     metadata := match metadata with
                 | Some m => m
                 | None => []
                 end;
     created_at := "2026-02-09" |}.

Definition set_vector (v : Vector) (item : t) : t :=
  {| id := id item; vector := v; metadata := metadata item;
     created_at := created_at item |}.

Definition set_metadata (m : Metadata) (item : t) : t :=
  {| id := id item; vector := vector item; metadata := m;
     created_at := created_at item |}.
End VectorItem.

(** ** The store and its world *)

(** The attributes of a [ChromaVectorDB] object.  The attribute [_config] is
    a reference to the one [ConfigSingleton] object of the process; that
    object is the field [config] of the [World]. *)
Record ChromaVectorDB := {
  embedding_dim : Z;
  similarity_strategy : SimilarityStrategy;
  _items : Dict.t VectorItem.t;
  _observers : list VectorDBObserver
}.

Record World := {
  config : ConfigSingleton;
  store : ChromaVectorDB;
  published : list Publication
}.

Definition with_items (items : Dict.t VectorItem.t) (w : World) : World :=
  {| config := config w;
     store := {| embedding_dim := embedding_dim (store w);
                similarity_strategy := similarity_strategy (store w);
                _items := items;
                _observers := _observers (store w) |};
     published := published w |}.

Definition with_observers (obs : list VectorDBObserver) (w : World)
  : World :=
  {| config := config w;
     store := {| embedding_dim := embedding_dim (store w);
                similarity_strategy := similarity_strategy (store w);
                _items := _items (store w);
                _observers := obs |};
     published := published w |}.

Definition with_published (p : list Publication) (w : World) : World :=
  {| config := config w; store := store w; published := p |}.

(** Assignments to the attributes of the configuration object made by any
    holder of a reference to it. *)
Definition with_config (c : ConfigSingleton) (w : World) : World :=
  {| config := c; store := store w; published := published w |}.

Definition set_max_items (n : Z) (w : World) : World :=
  with_config {| default_embedding_dim := default_embedding_dim (config w);
                 similarity_threshold := similarity_threshold (config w);
                 max_items := n |} w.

Definition set_similarity_threshold (x : R) (w : World) : World :=
  with_config {| default_embedding_dim := default_embedding_dim (config w);
                 similarity_threshold := x;
                 max_items := max_items (config w) |} w.

Definition set_default_embedding_dim (n : Z) (w : World) : World :=
  with_config {| default_embedding_dim := n;
                 similarity_threshold := similarity_threshold (config w);
                 max_items := max_items (config w) |} w.

(** ** Methods as computations *)

Definition M (A : Type) : Type := World -> Outcome A * World.

Definition ret {A : Type} (a : A) : M A := fun w => (Return a, w).

Definition raise {A : Type} (e : Exception) : M A := fun w => (Raise e, w).

Definition bind {A B : Type} (c : M A) (k : A -> M B) : M B :=
  fun w =>
    match c w with
    | (Return a, w') => k a w'
    | (Raise e, w') => (Raise e, w')
    end.

Declare Scope py_scope.
Delimit Scope py_scope with py.
Notation "x <- c ;; k" := (bind c (fun x => k))
  (at level 61, c at next level, right associativity) : py_scope.
Notation "c ;; k" := (bind c (fun _ => k))
  (at level 61, right associativity) : py_scope.
Open Scope py_scope.

(** [try: c  except Exception as e: handler(e)] *)
Definition try_except {A : Type} (c : M A) (handler : Exception -> M A)
  : M A :=
  fun w =>
    match c w with
    | (Return a, w') => (Return a, w')
    | (Raise e, w') => handler e w'
    end.

(** [if cond: raise e] *)
Definition raise_if (cond : bool) (e : Exception) : M unit :=
  if cond then raise e else ret tt.

(** A pure computation run inside a method. *)
Definition lift {A : Type} (c : Outcome A) : M A := fun w => (c, w).

(** [for x in xs: acc = body(acc, x)] *)
Fixpoint for_in {A S : Type} (xs : list A) (acc : S) (body : S -> A -> M S)
  : M S :=
  match xs with
  | [] => ret acc
  | x :: xs' => acc' <- body acc x ;; for_in xs' acc' body
  end.

Definition get_self : M ChromaVectorDB := fun w => (Return (store w), w).

Definition get_config : M ConfigSingleton :=
  fun w => (Return (config w), w).

Definition modify (f : World -> World) : M unit :=
  fun w => (Return tt, f w).

(** ** [ChromaVectorDB] *)

(** [ChromaVectorDB.__init__]: [instance] is [ConfigSingleton._instance] at
    the time of the call.  The new object keeps a reference to the
    configuration object, not a copy of its values. *)
Definition ChromaVectorDB_init (instance : option ConfigSingleton)
    (embedding_dim : Z) (similarity_strategy : option SimilarityStrategy)
  : World :=
  {| config := ConfigSingleton_new instance;
     store := {| embedding_dim := embedding_dim;
                similarity_strategy :=
                  match similarity_strategy with
                  | Some s => s
                  | None => CosineSimilarity
                  end;
                _items := Dict.empty;
                _observers := [] |};
     published := [] |}.

Definition add_observer (observer : VectorDBObserver) : M unit :=
  modify (fun w => with_observers (_observers (store w) ++ [observer]) w).

Definition _notify_observers (event_type : string) (data : EventData)
  : M unit :=
  modify (fun w =>
    with_published
      (published w ++ [{| event_type := event_type;
                          data := data;
                          receivers := _observers (store w) |}]) w).

Definition add (id : string) (vector : Vector) (metadata : option Metadata)
  : M bool :=
  self <- get_self ;;
  raise_if (negb (len vector =? embedding_dim self)%Z)
    (ValueError ("Vector dimension must be " ++ fmt (embedding_dim self))) ;;
  _config <- get_config ;;
  raise_if (len (_items self) >=? max_items _config)%Z
    (RuntimeError "Database capacity reached") ;;
  let item := VectorItem.init id vector metadata in
  modify (fun w => with_items (Dict.set id item (_items (store w))) w) ;;
  _notify_observers "add" (AddData id metadata) ;;
  ret true.

(** An element of the list given to [batch_add]: a dictionary in which each
    of the keys ["id"], ["vector"] and ["metadata"] is present or not. *)
Record BatchItem := {
  item_id : option string;
  item_vector : option Vector;
  item_metadata : option Metadata
}.

(** [item[key]] *)
Definition getitem {A : Type} (field : option A) (key : string) : M A :=
  match field with
  | Some a => ret a
  | None => raise (KeyError key)
  end.

Record FailedItem := {
  failed_id : option string;
  error : string
}.

Record BatchReport := {
  success_count : Z;
  failed_count : Z;
  failed_items : list FailedItem
}.

Definition batch_add (items : list BatchItem) : M BatchReport :=
  acc <- for_in items (0%Z, [])
    (fun '(success_count, failed_items) item =>
       try_except
         (id <- getitem (item_id item) "id" ;;
          vector <- getitem (item_vector item) "vector" ;;
          add id vector (item_metadata item) ;;
          ret ((success_count + 1)%Z, failed_items))
         (fun e =>
            ret (success_count,
                 failed_items ++ [{| failed_id := item_id item;
                                     error := str e |}]))) ;;
  let '(success_count, failed_items) := acc in
  ret {| success_count := success_count;
         failed_count := len failed_items;
         failed_items := failed_items |}.

Definition get (id : string) : M (option VectorItem.t) :=
  self <- get_self ;;
  ret (Dict.get id (_items self)).

Definition update (id : string) (vector : option Vector)
    (metadata : option Metadata) : M bool :=
  self <- get_self ;;
  if negb (Dict.contains id (_items self)) then ret false
  else
    match vector with
    | Some v =>
        raise_if (negb (len v =? embedding_dim self)%Z)
          (ValueError ("Vector dimension must be "
                       ++ fmt (embedding_dim self))) ;;
        modify (fun w =>
          with_items
            (Dict.mutate id (VectorItem.set_vector v) (_items (store w)))
            w)
    | None => ret tt
    end ;;
    match metadata with
    | Some m =>
        modify (fun w =>
          with_items
            (Dict.mutate id (VectorItem.set_metadata m)
               (_items (store w))) w)
    | None => ret tt
    end ;;
    _notify_observers "update" (IdData id) ;;
    ret true.

Definition delete (id : string) : M bool :=
  self <- get_self ;;
  if negb (Dict.contains id (_items self)) then ret false
  else
    modify (fun w => with_items (Dict.del id (_items (store w))) w) ;;
    _notify_observers "delete" (IdData id) ;;
    ret true.

Definition count : M Z :=
  self <- get_self ;;
  ret (len (_items self)).

Definition clear : M unit :=
  modify (with_items Dict.empty) ;;
  _notify_observers "clear" (MessageData "Database cleared").

(** *** Queries *)

(** An element of the list returned by [query]: a dictionary with the keys
    ["id"], ["similarity"] and ["metadata"]. *)
Module QueryResult.
Record t := {
  id : string;
  similarity : R;
  metadata : Metadata
}.
End QueryResult.

(** [x < y] and [x >= y] on numbers. *)
Definition Rlt_bool (x y : R) : bool :=
  if Rlt_dec x y then true else false.

Definition Rge_bool (x y : R) : bool :=
  if Rge_dec x y then true else false.

(** [results.sort(key=lambda x: x["similarity"], reverse=True)]: the stable
    sort of Python, largest key first; entries with equal keys keep their
    relative order.  [insert_desc x l] puts [x], which comes before the
    entries of [l] in the original list, in front of the first entry whose
    key is not larger than its own. *)
Fixpoint insert_desc (x : QueryResult.t) (l : list QueryResult.t)
  : list QueryResult.t :=
  match l with
  | [] => [x]
  | y :: l' =>
      if Rlt_bool (QueryResult.similarity x) (QueryResult.similarity y)
      then y :: insert_desc x l'
      else x :: y :: l'
  end.

Definition sort_reverse (results : list QueryResult.t)
  : list QueryResult.t :=
  fold_right insert_desc [] results.

(** [l[:stop]]: a negative [stop] counts from the end of the list. *)
Definition slice_to {A : Type} (l : list A) (stop : Z) : list A :=
  if (stop <? 0)%Z then firstn (Z.to_nat (len l + stop)) l
  else firstn (Z.to_nat stop) l.

(** [filter and not filter(item.metadata)] *)
Definition rejected (filter : option (Metadata -> bool)) (m : Metadata)
  : bool :=
  match filter with
  | Some f => negb (f m)
  | None => false
  end.

(** The loop of [query]: the list [results] before it is sorted. *)
Definition query_scan (query_vector : Vector)
    (filter : option (Metadata -> bool)) : M (list QueryResult.t) :=
  self <- get_self ;;
  for_in (_items self) []
    (fun results '(id, item) =>
       if rejected filter (VectorItem.metadata item) then ret results
       else
         similarity <-
           lift (@calculate (similarity_strategy self) query_vector
                   (VectorItem.vector item)) ;;
         _config <- get_config ;;
         if Rge_bool similarity (similarity_threshold _config) then
           ret (results ++ [{| QueryResult.id := id;
                               QueryResult.similarity := similarity;
                               QueryResult.metadata :=
                                 VectorItem.metadata item |}])
         else ret results).

Definition query (query_vector : Vector) (top_k : Z)
    (filter : option (Metadata -> bool)) : M (list QueryResult.t) :=
  self <- get_self ;;
  raise_if (negb (len query_vector =? embedding_dim self)%Z)
    (ValueError ("Query vector dimension must be "
                 ++ fmt (embedding_dim self))) ;;
  results <- query_scan query_vector filter ;;
  ret (slice_to (sort_reverse results) top_k).

(** ** Running methods *)

Definition outcome {A : Type} (r : Outcome A * World) : Outcome A := fst r.
Definition world {A : Type} (r : Outcome A * World) : World := snd r.

(** The world after a computation, whatever its outcome. *)
Definition exec {A : Type} (c : M A) (w : World) : World := snd (c w).

(** ** Vocabulary of the properties *)

(** Every stored vector has the length [embedding_dim]. *)
Definition well_formed (w : World) : Prop :=
  Forall (fun kv => len (VectorItem.vector (snd kv)) = embedding_dim (store w))
    (_items (store w)).

(** A strategy that returns a number on vectors of equal length. *)
Definition total_on_equal_lengths (s : SimilarityStrategy) : Prop :=
  forall a b : Vector,
    length a = length b -> exists r : R, @calculate s a b = Return r.

(** No id is stored twice. *)
Definition unique_ids (w : World) : Prop :=
  NoDup (Dict.keys (_items (store w))).

(** [r] has a score that reaches the threshold of the configuration. *)
Definition above_floor (w : World) (r : QueryResult.t) : Prop :=
  (QueryResult.similarity r >= similarity_threshold (config w))%R.

(** [desc r1 r2]: [r1] may stand before [r2] in a descending list. *)
Definition desc (r1 r2 : QueryResult.t) : Prop :=
  (QueryResult.similarity r1 >= QueryResult.similarity r2)%R.

(** The list collected by the loop of [query], as a function of what the
    loop reads: the strategy, the threshold and the records. *)
Fixpoint scan (s : SimilarityStrategy) (threshold : R)
    (query_vector : Vector) (filter : option (Metadata -> bool))
    (items : Dict.t VectorItem.t) (results : list QueryResult.t)
  : Outcome (list QueryResult.t) :=
  match items with
  | [] => Return results
  | (id, item) :: items' =>
      if rejected filter (VectorItem.metadata item) then
        scan s threshold query_vector filter items' results
      else
        obind (@calculate s query_vector (VectorItem.vector item))
          (fun similarity =>
             scan s threshold query_vector filter items'
               (if Rge_bool similarity threshold then
                  results ++ [{| QueryResult.id := id;
                                 QueryResult.similarity := similarity;
                                 QueryResult.metadata :=
                                   VectorItem.metadata item |}]
                else results))
  end.

(** *** Batches *)

(** The insertion that [batch_add] attempts for one item. *)
Definition insert_item (item : BatchItem) : M bool :=
  id <- getitem (item_id item) "id" ;;
  vector <- getitem (item_vector item) "vector" ;;
  add id vector (item_metadata item).

(** Batches as the specification words them: the items are inserted one
    after the other, each in the world that the items before it left;
    [attempts] lists every item of the batch with the outcome of its
    insertion, in the order of the batch. *)
Fixpoint attempts (items : list BatchItem) (w : World)
  : list (BatchItem * Outcome bool) * World :=
  match items with
  | [] => ([], w)
  | item :: items' =>
      let (o, w1) := insert_item item w in
      let (rest, w2) := attempts items' w1 in
      ((item, o) :: rest, w2)
  end.

Definition succeeded (a : BatchItem * Outcome bool) : bool :=
  match snd a with
  | Return _ => true
  | Raise _ => false
  end.

(** The failure records of the attempts that raised: the id of the item
    and the message of the exception. *)
Fixpoint failures (log : list (BatchItem * Outcome bool))
  : list FailedItem :=
  match log with
  | [] => []
  | (item, Raise e) :: log' =>
      {| failed_id := item_id item; error := str e |} :: failures log'
  | (_, Return _) :: log' => failures log'
  end.

(** *** The states a store can be in *)

(** What a holder of the store, or of the configuration object, can do. *)
Inductive Call :=
| CallAddObserver (observer : VectorDBObserver)
| CallAdd (id : string) (vector : Vector) (metadata : option Metadata)
| CallBatchAdd (items : list BatchItem)
| CallUpdate (id : string) (vector : option Vector)
    (metadata : option Metadata)
| CallDelete (id : string)
| CallQuery (query_vector : Vector) (top_k : Z)
    (filter : option (Metadata -> bool))
| CallClear
| SetConfig (c : ConfigSingleton).

Definition run (c : Call) (w : World) : World :=
  match c with
  | CallAddObserver observer => exec (add_observer observer) w
  | CallAdd id vector metadata => exec (add id vector metadata) w
  | CallBatchAdd items => exec (batch_add items) w
  | CallUpdate id vector metadata => exec (update id vector metadata) w
  | CallDelete id => exec (delete id) w
  | CallQuery query_vector top_k filter =>
      exec (query query_vector top_k filter) w
  | CallClear => exec clear w
  | SetConfig c => with_config c w
  end.

(** The worlds reached from a newly constructed store. *)
Inductive reachable : World -> Prop :=
| reachable_init instance embedding_dim similarity_strategy :
    reachable (ChromaVectorDB_init instance embedding_dim similarity_strategy)
| reachable_run c w : reachable w -> reachable (run c w).

(** ** Sample stores *)

Definition hit (id : string) (similarity : R) : QueryResult.t :=
  {| QueryResult.id := id;
     QueryResult.similarity := similarity;
     QueryResult.metadata := [] |}.

(** A store filled to a capacity of one record. *)
Definition full_world : World :=
  set_max_items 1
    (world (add "a" [1%R; 0%R] None (ChromaVectorDB_init None 2 None))).

(** A store with one record and two subscribed observers. *)
Definition observed_world : World :=
  exec (add "a" [1%R; 0%R] None)
    (exec (add_observer 2%nat)
       (exec (add_observer 1%nat) (ChromaVectorDB_init None 2 None))).

(** Dimension 2; ["x"] and ["y"] hold the same vector, ["z"] an orthogonal
    one. *)
Definition sample_world : World :=
  exec (add "z" [0%R; 1%R] None)
    (exec (add "y" [1%R; 0%R] None)
       (exec (add "x" [1%R; 0%R] None) (ChromaVectorDB_init None 2 None))).

(** ** The inverse-distance strategy, the factory and the script *)

(** [a - b] entry by entry. *)
Fixpoint sub (a b : Vector) : Vector :=
  match a, b with
  | x :: a', y :: b' => (x - y)%R :: sub a' b'
  | _, _ => []
  end.

(** [vector1 - vector2] on one-dimensional arrays: arrays of equal length
    are subtracted entry by entry, an array of length 1 is broadcast
    against the other one, and any other pair of lengths is an error. *)
Definition np_subtract (a b : Vector) : Outcome Vector :=
  if (len a =? len b)%Z then Return (sub a b)
  else if (len a =? 1)%Z then Return (map (fun y => (hd 0%R a - y)%R) b)
  else if (len b =? 1)%Z then Return (map (fun x => (x - hd 0%R b)%R) a)
  else Raise (ValueError
         ("operands could not be broadcast together with shapes ("
          ++ fmt (len a) ++ ",) (" ++ fmt (len b) ++ ",) ")%string).

(** [EuclideanSimilarity.calculate] *)
Definition EuclideanSimilarity_calculate (vector1 vector2 : Vector)
  : Outcome R :=
  obind (np_subtract vector1 vector2) (fun difference =>
  let distance := np_linalg_norm difference in
  np_divide 1 (1 + distance)).

#[export] Instance EuclideanSimilarity : SimilarityStrategy :=
  {| calculate := EuclideanSimilarity_calculate |}.

(** [ChromaFactory]; [instance] is [ConfigSingleton._instance] at the time
    of the call. *)
Definition create_default_db (instance : option ConfigSingleton) : World :=
  ChromaVectorDB_init instance 128 None.

Definition create_db_with_dimension (instance : option ConfigSingleton)
    (embedding_dim : Z) : World :=
  ChromaVectorDB_init instance embedding_dim None.

Definition create_db_with_strategy (instance : option ConfigSingleton)
    (strategy : option SimilarityStrategy) : World :=
  ChromaVectorDB_init instance 128 strategy.

(** The script [core/simple_chroma.py]: its database is a dictionary from
    ids to vectors. *)
Module SimpleChroma.
(** [calculate_similarity] *)
Definition calculate_similarity (v1 v2 : Vector) : Outcome R := np_dot v1 v2.

(** The loop of step 5, started with any values of [best_id] and
    [best_similarity]. *)
Fixpoint best_loop (items : list (string * Vector)) (query_vector : Vector)
    (best_id : option string) (best_similarity : R)
  : Outcome (option string * R) :=
  match items with
  | [] => Return (best_id, best_similarity)
  | (id, vector) :: items' =>
      obind (calculate_similarity query_vector vector) (fun similarity =>
      if Rlt_bool best_similarity similarity then
        best_loop items' query_vector (Some id) similarity
      else best_loop items' query_vector best_id best_similarity)
  end.

(** Step 5 as a whole: [best_id] and [best_similarity] after the loop. *)
Definition find_best (database : Dict.t Vector) (query_vector : Vector)
  : Outcome (option string * R) :=
  best_loop database query_vector None (-999999)%R.
End SimpleChroma.

(** ** The cosine strategy on double precision numbers

    The scores of the strategies above are real numbers, which is enough
    for what the store does with a score: compare it and sort by it.  What
    [CosineSimilarity.calculate] itself computes depends on the rounding,
    the underflow and the overflow of double precision arithmetic, so the
    strategy is modelled a second time, on the binary64 numbers of the
    Standard Library ([float], with the operations of IEEE 754).  The order
    in which [np.dot] adds up the products is not fixed by the source: the
    value of [np.dot] on two arrays of equal length is a parameter [dot] of
    the model. *)
Module Float64.
Definition Vector := list float.

Section Strategy.
Variable dot : Vector -> Vector -> float.

(** [np.dot] on one-dimensional arrays: the lengths must agree. *)
Definition np_dot (a b : Vector) : Outcome float :=
  if (len a =? len b)%Z then Return (dot a b)
  else Raise (ValueError
         ("shapes (" ++ fmt (len a) ++ ",) and (" ++ fmt (len b)
          ++ ",) not aligned: " ++ fmt (len a) ++ " (dim 0) != "
          ++ fmt (len b) ++ " (dim 0)")%string).

(** [np.linalg.norm] of a one-dimensional array: [sqrt(x.dot(x))]. *)
Definition np_linalg_norm (x : Vector) : float :=
  PrimFloat.sqrt (dot x x).

(** [CosineSimilarity.calculate]; [==] and [/] are those of IEEE 754. *)
Definition CosineSimilarity_calculate (vector1 vector2 : Vector)
  : Outcome float :=
  obind (np_dot vector1 vector2) (fun dot_product =>
  let norm1 := np_linalg_norm vector1 in
  let norm2 := np_linalg_norm vector2 in
  if (norm1 =? 0)%float || (norm2 =? 0)%float then Return 0%float
  else Return (dot_product / (norm1 * norm2))%float).
End Strategy.

(** One value that [np.dot] can take: the products added one after the
    other, from the first entry on. *)
Fixpoint dot_from (acc : float) (a b : Vector) : float :=
  match a, b with
  | x :: a', y :: b' => dot_from (acc + x * y)%float a' b'
  | _, _ => acc
  end.

Definition dot_sequential (a b : Vector) : float := dot_from 0%float a b.
End Float64.

(** [x] is not a zero and, when it is finite, has at least the magnitude
    [2 ^ (k - 1)]. *)
Definition big (k : Z) (x : spec_float) : Prop :=
  match x with
  | S754_zero _ => False
  | S754_finite _ m e => (k <= Zdigits2 (Zpos m) + e)%Z
  | _ => True
  end.

(** ** Queries with a filter that can raise

    The filter that [query] receives is any callable; what it returns is
    taken as a truth value, and an exception that it raises leaves
    [query]. *)
Definition Callable := Metadata -> Outcome bool.

(** [filter and not filter(item.metadata)] *)
Definition rejected_by (filter : option Callable) (m : Metadata) : M bool :=
  match filter with
  | Some f => passes <- lift (f m) ;; ret (negb passes)
  | None => ret false
  end.

Definition query_scan_callable (query_vector : Vector)
    (filter : option Callable) : M (list QueryResult.t) :=
  self <- get_self ;;
  for_in (_items self) []
    (fun results '(id, item) =>
       skip <- rejected_by filter (VectorItem.metadata item) ;;
       if skip then ret results
       else
         similarity <-
           lift (@calculate (similarity_strategy self) query_vector
                   (VectorItem.vector item)) ;;
         _config <- get_config ;;
         if Rge_bool similarity (similarity_threshold _config) then
           ret (results ++ [{| QueryResult.id := id;
                               QueryResult.similarity := similarity;
                               QueryResult.metadata :=
                                 VectorItem.metadata item |}])
         else ret results).

Definition query_callable (query_vector : Vector) (top_k : Z)
    (filter : option Callable) : M (list QueryResult.t) :=
  self <- get_self ;;
  raise_if (negb (len query_vector =? embedding_dim self)%Z)
    (ValueError ("Query vector dimension must be "
                 ++ fmt (embedding_dim self))) ;;
  results <- query_scan_callable query_vector filter ;;
  ret (slice_to (sort_reverse results) top_k).

(** A filter that returns: the callable of a function to [bool]. *)
Definition returning (filter : option (Metadata -> bool))
  : option Callable :=
  option_map (fun f m => Return (f m)) filter.

(** *** Vocabulary of the further properties *)

(** The calls that leave the configuration object alone. *)
Definition keeps_config (c : Call) : bool :=
  match c with
  | SetConfig _ => false
  | _ => true
  end.

(** [r] is the entry that [query] builds for the stored record [item]
    of the id [id]: the record passes the filter and [r] carries its id,
    its metadata and the score of its vector against [query_vector]. *)
Definition entry_of (s : SimilarityStrategy) (query_vector : Vector)
    (filter : option (Metadata -> bool)) (id : string) (item : VectorItem.t)
    (r : QueryResult.t) : Prop :=
  QueryResult.id r = id
  /\ QueryResult.metadata r = VectorItem.metadata item
  /\ rejected filter (VectorItem.metadata item) = false
  /\ @calculate s query_vector (VectorItem.vector item)
     = Return (QueryResult.similarity r).

(** The entries of [l] whose score is [x], in the order of [l]. *)
Definition with_score (x : R) (l : list QueryResult.t)
  : list QueryResult.t :=
  List.filter (fun r => Req_bool (QueryResult.similarity r) x) l.


(** The type of the events that a call can publish. *)
Definition event_type_of (c : Call) : string :=
  match c with
  | CallAdd _ _ _ | CallBatchAdd _ => "add"
  | CallUpdate _ _ _ => "update"
  | CallDelete _ => "delete"
  | CallClear => "clear"
  | CallAddObserver _ | CallQuery _ _ _ | SetConfig _ => ""
  end.

(** An event of type [t] that went to the observers [obs]. *)
Definition sent (t : string) (obs : list VectorDBObserver)
    (p : Publication) : Prop :=
  event_type p = t /\ receivers p = obs.

(** The store holds no more records than [max_items]. *)
Definition within_capacity (w : World) : Prop :=
  (len (_items (store w)) <= max_items (config w))%Z.

(** [w'] is a later state of the store of [w]: the same dimension and
    strategy, the publications and the subscriptions of [w] followed by
    new ones. *)
Definition evolves (w w' : World) : Prop :=
  embedding_dim (store w') = embedding_dim (store w)
  /\ similarity_strategy (store w') = similarity_strategy (store w)
  /\ (exists events, published w' = published w ++ events)
  /\ (exists observers,
        _observers (store w') = _observers (store w) ++ observers).

(** A batch item with an id and a vector of the length [d]. *)
Definition valid_item (d : Z) (item : BatchItem) : Prop :=
  item_id item <> None
  /\ exists vector, item_vector item = Some vector /\ len vector = d.

(** * Properties *)

(** ** First runs *)

Example add_then_count :
  let w0 := ChromaVectorDB_init None 2 None in
  let r := add "x" [1%R; 0%R] None w0 in
  outcome r = Return true /\ outcome (count (world r)) = Return 1%Z
  /\ published (world r)
     = [{| event_type := "add"; data := AddData "x" None; receivers := [] |}].
Proof. repeat split. Qed.

Example add_wrong_length :
  outcome (add "x" [1%R] None (ChromaVectorDB_init None 128 None))
  = Raise (ValueError "Vector dimension must be 128").
Proof. reflexivity. Qed.

(** ** Dictionaries *)

Section DictFacts.
Variable V : Type.
Implicit Types (d : Dict.t V) (k : string) (v : V).

Lemma contains_get k d :
  Dict.contains k d = true <-> exists v, Dict.get k d = Some v.
Proof.
  unfold Dict.contains. destruct (Dict.get k d) as [v|].
  - split; [intros _; now exists v | reflexivity].
  - split; [discriminate | intros [v Hv]; discriminate].
Qed.

Lemma length_set_present k v d :
  Dict.contains k d = true -> length (Dict.set k v d) = length d.
Proof.
  unfold Dict.contains. induction d as [|[k' v'] d IH]; simpl.
  - discriminate.
  - destruct (String.eqb k' k); simpl; [reflexivity|].
    intros H. now rewrite IH.
Qed.

Lemma length_set_absent k v d :
  Dict.contains k d = false -> length (Dict.set k v d) = S (length d).
Proof.
  unfold Dict.contains. induction d as [|[k' v'] d IH]; simpl.
  - reflexivity.
  - destruct (String.eqb k' k); simpl; [discriminate|].
    intros H. now rewrite IH.
Qed.

Lemma get_set_same k v d : Dict.get k (Dict.set k v d) = Some v.
Proof.
  induction d as [|[k' v'] d IH]; simpl.
  - now rewrite String.eqb_refl.
  - destruct (String.eqb k' k) eqn:E; simpl.
    + now rewrite String.eqb_refl.
    + now rewrite E.
Qed.

Lemma get_del_same k d :
  NoDup (Dict.keys d) -> Dict.get k (Dict.del k d) = None.
Proof.
  induction d as [|[k' v'] d IH]; simpl; intros Hnd.
  - reflexivity.
  - inversion Hnd as [|? ? Hnotin Hnd']; subst.
    destruct (String.eqb k' k) eqn:E; simpl.
    + apply String.eqb_eq in E; subst k'.
      clear IH Hnd Hnd'. induction d as [|[k2 v2] d IH]; simpl.
      * reflexivity.
      * destruct (String.eqb k2 k) eqn:E2.
        -- apply String.eqb_eq in E2; subst. exfalso. apply Hnotin.
           now left.
        -- apply IH. intros Hin. apply Hnotin. now right.
    + rewrite E. now apply IH.
Qed.
Lemma keys_mutate k (f : V -> V) d :
  Dict.keys (Dict.mutate k f d) = Dict.keys d.
Proof.
  induction d as [|[k' v'] d IH]; simpl.
  - reflexivity.
  - destruct (String.eqb k' k); simpl; [reflexivity|]. now rewrite IH.
Qed.

Lemma in_keys_set k v d k0 :
  In k0 (Dict.keys (Dict.set k v d)) -> k0 = k \/ In k0 (Dict.keys d).
Proof.
  induction d as [|[k' v'] d IH]; simpl.
  - intros [H|[]]. now left.
  - destruct (String.eqb_spec k' k) as [->|Hne]; simpl.
    + intros [H|H]; auto.
    + intros [H|H]; auto. destruct (IH H); auto.
Qed.

Lemma in_keys_del k d k0 :
  In k0 (Dict.keys (Dict.del k d)) -> In k0 (Dict.keys d).
Proof.
  induction d as [|[k' v'] d IH]; simpl.
  - auto.
  - destruct (String.eqb k' k); simpl; [auto|].
    intros [H|H]; auto.
Qed.

Lemma NoDup_keys_set k v d :
  NoDup (Dict.keys d) -> NoDup (Dict.keys (Dict.set k v d)).
Proof.
  induction d as [|[k' v'] d IH]; simpl; intros Hnd.
  - repeat constructor. intros [].
  - inversion Hnd as [|? ? Hnotin Hnd']; subst.
    destruct (String.eqb_spec k' k) as [->|Hne]; simpl.
    + now constructor.
    + constructor; [|now apply IH].
      intros Hin. apply in_keys_set in Hin. destruct Hin; auto.
Qed.

Lemma NoDup_keys_del k d :
  NoDup (Dict.keys d) -> NoDup (Dict.keys (Dict.del k d)).
Proof.
  induction d as [|[k' v'] d IH]; simpl; intros Hnd.
  - constructor.
  - inversion Hnd as [|? ? Hnotin Hnd']; subst.
    destruct (String.eqb k' k); simpl; [exact Hnd'|].
    constructor; [|now apply IH].
    intros Hin. apply in_keys_del in Hin. auto.
Qed.
End DictFacts.

(** ** Stepping through a method *)

Lemma bind_return {A B : Type} (c : M A) (k : A -> M B) w a w' :
  c w = (Return a, w') -> bind c k w = k a w'.
Proof. unfold bind. now intros ->. Qed.

Ltac step :=
  unfold add, update, delete, clear, count, get, _notify_observers,
    add_observer, raise_if, modify, get_self, get_config, bind, ret, raise,
    outcome, world, exec; simpl.

(** ** Rejected insertions and updates *)

(** C4. An [add] whose vector has not the length [embedding_dim] raises the
    [ValueError] of the dimension check and leaves the world as it was: the
    same records, the same count, and nothing published. *)
Theorem add_dimension_mismatch :
  forall (w : World) (id : string) (vector : Vector)
         (metadata : option Metadata),
    len vector <> embedding_dim (store w) ->
    add id vector metadata w
    = (Raise (ValueError ("Vector dimension must be "
                          ++ fmt (embedding_dim (store w)))), w)
    /\ count (world (add id vector metadata w)) = count w
    /\ published (world (add id vector metadata w)) = published w.
Proof.
  intros w id vector metadata Hlen.
  assert (E : add id vector metadata w
              = (Raise (ValueError ("Vector dimension must be "
                                    ++ fmt (embedding_dim (store w)))), w)).
  { step. destruct (Z.eqb_spec (len vector) (embedding_dim (store w))).
    - contradiction.
    - reflexivity. }
  rewrite E. repeat split.
Qed.

Lemma add_dimension_mismatch_witness :
  let w := ChromaVectorDB_init None 128 None in
  len [1%R; 2%R] <> embedding_dim (store w)
  /\ add "x" [1%R; 2%R] None w
     = (Raise (ValueError "Vector dimension must be 128"), w).
Proof.
  assert (H : len [1%R; 2%R]
              <> embedding_dim (store (ChromaVectorDB_init None 128 None)))
    by (unfold len; simpl; lia).
  split; [exact H|].
  exact (proj1 (add_dimension_mismatch
                  (ChromaVectorDB_init None 128 None) "x"
                  [1%R; 2%R] None H)).
Defined.

(** C5. When the store holds exactly [max_items] records, an [add] of a
    vector of the right length raises the [RuntimeError] of the capacity
    check and leaves the world as it was: no record is added or overwritten
    and nothing is published. *)
Theorem add_at_capacity :
  forall (w : World) (id : string) (vector : Vector)
         (metadata : option Metadata),
    len vector = embedding_dim (store w) ->
    outcome (count w) = Return (max_items (config w)) ->
    add id vector metadata w
    = (Raise (RuntimeError "Database capacity reached"), w)
    /\ outcome (count (world (add id vector metadata w)))
       = Return (max_items (config w))
    /\ _items (store (world (add id vector metadata w))) = _items (store w)
    /\ published (world (add id vector metadata w)) = published w.
Proof.
  intros w id vector metadata Hlen Hcount.
  assert (E : add id vector metadata w
              = (Raise (RuntimeError "Database capacity reached"), w)).
  { revert Hcount. step. intros Hcount. injection Hcount as Hcount.
    rewrite Hlen, Z.eqb_refl. simpl.
    rewrite Hcount.
    replace (max_items (config w) >=? max_items (config w))%Z with true.
    - reflexivity.
    - symmetry. apply Z.geb_le. lia. }
  rewrite E. simpl. repeat split. exact Hcount.
Qed.

Lemma add_at_capacity_witness :
  len [0%R; 1%R] = embedding_dim (store full_world)
  /\ outcome (count full_world) = Return (max_items (config full_world))
  /\ add "b" [0%R; 1%R] None full_world
     = (Raise (RuntimeError "Database capacity reached"), full_world).
Proof.
  assert (H1 : len [0%R; 1%R] = embedding_dim (store full_world))
    by reflexivity.
  assert (H2 : outcome (count full_world)
               = Return (max_items (config full_world))) by reflexivity.
  split; [exact H1|]. split; [exact H2|].
  exact (proj1 (add_at_capacity full_world "b" [0%R; 1%R] None
                  H1 H2)).
Defined.

(** C6. An [update] of a stored id with a vector that has not the length
    [embedding_dim] raises the [ValueError] of the dimension check and
    leaves the world as it was: the record keeps its vector and its
    metadata, also when new metadata was given, and nothing is published. *)
Theorem update_dimension_mismatch :
  forall (w : World) (id : string) (item : VectorItem.t) (vector : Vector)
         (metadata : option Metadata),
    outcome (get id w) = Return (Some item) ->
    len vector <> embedding_dim (store w) ->
    update id (Some vector) metadata w
    = (Raise (ValueError ("Vector dimension must be "
                          ++ fmt (embedding_dim (store w)))), w)
    /\ outcome (get id (world (update id (Some vector) metadata w)))
       = Return (Some item)
    /\ published (world (update id (Some vector) metadata w)) = published w.
Proof.
  intros w id item vector metadata Hget Hlen.
  assert (E : update id (Some vector) metadata w
              = (Raise (ValueError ("Vector dimension must be "
                                    ++ fmt (embedding_dim (store w)))), w)).
  { revert Hget. step. intros Hget. injection Hget as Hget.
    unfold Dict.contains. rewrite Hget. simpl.
    destruct (Z.eqb_spec (len vector) (embedding_dim (store w))).
    - contradiction.
    - reflexivity. }
  rewrite E. simpl. repeat split. exact Hget.
Qed.

Lemma update_dimension_mismatch_witness :
  let w := full_world in
  let item := VectorItem.init "a" [1%R; 0%R] None in
  outcome (get "a" w) = Return (Some item)
  /\ len [5%R] <> embedding_dim (store w)
  /\ update "a" (Some [5%R]) (Some [("k", PyInt 1)]) w
     = (Raise (ValueError "Vector dimension must be 2"), w).
Proof.
  assert (H1 : outcome (get "a" full_world)
               = Return (Some (VectorItem.init "a" [1%R; 0%R] None)))
    by reflexivity.
  assert (H2 : len [5%R] <> embedding_dim (store full_world))
    by (unfold len; simpl; lia).
  split; [exact H1|]. split; [exact H2|].
  exact (proj1 (update_dimension_mismatch full_world "a"
                  (VectorItem.init "a" [1%R; 0%R] None) [5%R]
                  (Some [("k", PyInt 1)]) H1 H2)).
Defined.

(** ** Events *)

(** C9. [clear] removes every record, so that [count] is [0] afterwards,
    and publishes one event, of type ["clear"], whatever the number of
    records the store held. *)
Theorem clear_publishes_once :
  forall w : World,
    outcome (clear w) = Return tt
    /\ outcome (count (world (clear w))) = Return 0%Z
    /\ _items (store (world (clear w))) = Dict.empty
    /\ published (world (clear w))
       = published w
         ++ [{| event_type := "clear";
                data := MessageData "Database cleared";
                receivers := _observers (store w) |}]
    /\ length (published (world (clear w))) = S (length (published w)).
Proof.
  intros w. step. repeat split.
  rewrite length_app. simpl. lia.
Qed.

(** C10. An [update] of a stored id with neither a vector nor metadata
    returns [True], publishes one event of type ["update"] that goes to
    every subscribed observer, and leaves the store, hence the vector and
    the metadata of the record, as they were. *)
Theorem update_noop_publishes :
  forall (w : World) (id : string) (item : VectorItem.t),
    outcome (get id w) = Return (Some item) ->
    outcome (update id None None w) = Return true
    /\ published (world (update id None None w))
       = published w
         ++ [{| event_type := "update";
                data := IdData id;
                receivers := _observers (store w) |}]
    /\ store (world (update id None None w)) = store w
    /\ outcome (get id (world (update id None None w))) = Return (Some item).
Proof.
  intros w id item. step. intros Hget. injection Hget as Hget.
  unfold Dict.contains. rewrite Hget. simpl. repeat split.
  now rewrite Hget.
Qed.

Lemma update_noop_publishes_witness :
  outcome (get "a" observed_world)
  = Return (Some (VectorItem.init "a" [1%R; 0%R] None))
  /\ outcome (update "a" None None observed_world) = Return true
  /\ published (world (update "a" None None observed_world))
     = [{| event_type := "add"; data := AddData "a" None;
           receivers := [1%nat; 2%nat] |};
        {| event_type := "update"; data := IdData "a";
           receivers := [1%nat; 2%nat] |}].
Proof.
  assert (H : outcome (get "a" observed_world)
              = Return (Some (VectorItem.init "a" [1%R; 0%R] None)))
    by reflexivity.
  split; [exact H|].
  pose proof (update_noop_publishes observed_world "a"
                (VectorItem.init "a" [1%R; 0%R] None) H) as [Ho [Hp _]].
  split; [exact Ho|]. rewrite Hp. reflexivity.
Defined.

(** ** The cosine strategy *)

Lemma Req_bool_true x y : Req_bool x y = true <-> x = y.
Proof.
  unfold Req_bool. destruct (Req_dec_T x y); split; congruence.
Qed.

Lemma Req_bool_false x y : Req_bool x y = false <-> x <> y.
Proof.
  unfold Req_bool. destruct (Req_dec_T x y); split; congruence.
Qed.

Lemma np_dot_equal_lengths (a b : Vector) :
  length a = length b -> np_dot a b = Return (dot a b).
Proof.
  intros H. unfold np_dot, len. rewrite H. now rewrite Z.eqb_refl.
Qed.

Lemma np_divide_nonzero (x y : R) :
  y <> 0%R -> np_divide x y = Return (x / y)%R.
Proof.
  intros H. unfold np_divide. apply Req_bool_false in H. now rewrite H.
Qed.

(** The three branches of [CosineSimilarity.calculate] on vectors of equal
    length. *)
Lemma cosine_zero_norm (a b : Vector) :
  length a = length b ->
  np_linalg_norm a = 0%R \/ np_linalg_norm b = 0%R ->
  CosineSimilarity_calculate a b = Return 0%R.
Proof.
  intros Hlen Hz. unfold CosineSimilarity_calculate.
  rewrite (np_dot_equal_lengths a b Hlen). simpl.
  destruct Hz as [Hz|Hz]; apply Req_bool_true in Hz; rewrite Hz.
  - reflexivity.
  - now rewrite orb_true_r.
Qed.

Lemma cosine_nonzero_norms (a b : Vector) :
  length a = length b ->
  np_linalg_norm a <> 0%R -> np_linalg_norm b <> 0%R ->
  (np_linalg_norm a * np_linalg_norm b <> 0)%R
  /\ CosineSimilarity_calculate a b
     = Return (dot a b / (np_linalg_norm a * np_linalg_norm b))%R.
Proof.
  intros Hlen Ha Hb.
  assert (Hprod : (np_linalg_norm a * np_linalg_norm b <> 0)%R).
  { intros H. apply Rmult_integral in H. tauto. }
  split; [exact Hprod|].
  unfold CosineSimilarity_calculate.
  rewrite (np_dot_equal_lengths a b Hlen). simpl.
  apply Req_bool_false in Ha, Hb. rewrite Ha, Hb. simpl.
  now apply np_divide_nonzero.
Qed.

(** ** Loops *)

(** A property of the accumulator and the world that every iteration keeps
    holds when the loop returns. *)
Lemma for_in_invariant {A S : Type} (I : S -> World -> Prop)
    (body : S -> A -> M S) :
  (forall acc x w acc' w',
      I acc w -> body acc x w = (Return acc', w') -> I acc' w') ->
  forall xs acc w acc' w',
    I acc w -> for_in xs acc body w = (Return acc', w') -> I acc' w'.
Proof.
  intros Hbody xs. induction xs as [|x xs IH]; simpl; intros acc w acc' w' HI.
  - unfold ret. intros E. injection E as <- <-. exact HI.
  - unfold bind. destruct (body acc x w) as [[acc1|e] w1] eqn:Ebody.
    + intros E. eapply IH; [|exact E]. eapply Hbody; eauto.
    + discriminate.
Qed.

(** A loop whose iterations all return, returns. *)
Lemma for_in_returns {A S : Type} (P : A -> Prop) (body : S -> A -> M S) :
  (forall acc x w, P x -> exists acc', body acc x w = (Return acc', w)) ->
  forall xs acc w,
    Forall P xs -> exists acc', for_in xs acc body w = (Return acc', w).
Proof.
  intros Hbody xs. induction xs as [|x xs IH]; simpl; intros acc w HP.
  - now exists acc.
  - inversion HP as [|? ? Hx Hxs]; subst.
    destruct (Hbody acc x w Hx) as [acc1 E1].
    unfold bind. rewrite E1. now apply IH.
Qed.

(** ** Sorting and slicing *)

Lemma Rlt_bool_true x y : Rlt_bool x y = true <-> (x < y)%R.
Proof. unfold Rlt_bool. destruct (Rlt_dec x y); split; congruence. Qed.

Lemma Rlt_bool_false x y : Rlt_bool x y = false <-> (x >= y)%R.
Proof.
  unfold Rlt_bool. destruct (Rlt_dec x y); split; try congruence; lra.
Qed.

Lemma Rge_bool_true x y : Rge_bool x y = true <-> (x >= y)%R.
Proof. unfold Rge_bool. destruct (Rge_dec x y); split; congruence. Qed.

Lemma insert_desc_perm x l : Permutation (insert_desc x l) (x :: l).
Proof.
  induction l as [|y l IH]; simpl.
  - reflexivity.
  - destruct (Rlt_bool _ _).
    + rewrite IH. apply perm_swap.
    + reflexivity.
Qed.

Lemma sort_reverse_perm l : Permutation (sort_reverse l) l.
Proof.
  induction l as [|x l IH]; simpl.
  - reflexivity.
  - rewrite insert_desc_perm. now constructor.
Qed.

Lemma insert_desc_sorted x l :
  StronglySorted desc l -> StronglySorted desc (insert_desc x l).
Proof.
  induction l as [|y l IH]; simpl; intros Hs.
  - repeat constructor.
  - inversion Hs as [|? ? Hl Hy]; subst.
    destruct (Rlt_bool _ _) eqn:E.
    + apply Rlt_bool_true in E. constructor; [now apply IH|].
      assert (Hxl : Forall (desc y) (x :: l))
        by (constructor; [unfold desc; lra | exact Hy]).
      revert Hxl. apply Permutation_Forall. symmetry.
      apply insert_desc_perm.
    + apply Rlt_bool_false in E. constructor; [exact Hs|].
      constructor; [exact E|].
      eapply Forall_impl; [|exact Hy]. unfold desc. intros r Hr. lra.
Qed.

Lemma sort_reverse_sorted l : StronglySorted desc (sort_reverse l).
Proof.
  induction l as [|x l IH]; simpl.
  - constructor.
  - now apply insert_desc_sorted.
Qed.

Lemma Forall_firstn {A : Type} (P : A -> Prop) n l :
  Forall P l -> Forall P (firstn n l).
Proof.
  revert l. induction n as [|n IH]; intros [|x l] H; simpl;
    try constructor; inversion H; subst; auto.
Qed.

Lemma firstn_sorted {A : Type} (R : A -> A -> Prop) n l :
  StronglySorted R l -> StronglySorted R (firstn n l).
Proof.
  revert l. induction n as [|n IH]; intros [|x l] Hs; simpl;
    try constructor.
  - inversion Hs; subst. now apply IH.
  - inversion Hs; subst. now apply Forall_firstn.
Qed.

Lemma slice_to_sorted {A : Type} (R : A -> A -> Prop) l stop :
  StronglySorted R l -> StronglySorted R (slice_to l stop).
Proof. unfold slice_to. destruct (stop <? 0)%Z; apply firstn_sorted. Qed.

Lemma slice_to_Forall {A : Type} (P : A -> Prop) l stop :
  Forall P l -> Forall P (slice_to l stop).
Proof. unfold slice_to. destruct (stop <? 0)%Z; apply Forall_firstn. Qed.

Lemma slice_to_length {A : Type} (l : list A) stop :
  (0 <= stop)%Z -> (len (slice_to l stop) <= stop)%Z.
Proof.
  intros H. unfold slice_to, len.
  destruct (Z.ltb_spec stop 0); [lia|].
  rewrite length_firstn. lia.
Qed.

(** What [l[:stop]] keeps, for every integer [stop]. *)
Lemma slice_to_length_exact {A : Type} (l : list A) stop :
  len (slice_to l stop)
  = (if stop <? 0 then Z.max 0 (len l + stop) else Z.min stop (len l))%Z.
Proof.
  unfold slice_to, len.
  destruct (Z.ltb_spec stop 0); rewrite length_firstn; lia.
Qed.

(** ** Queries *)

Lemma cosine_total_on_equal_lengths : total_on_equal_lengths CosineSimilarity.
Proof.
  intros a b Hlen. simpl.
  destruct (Req_dec_T (np_linalg_norm a) 0) as [Ha|Ha].
  - exists 0%R. apply cosine_zero_norm; auto.
  - destruct (Req_dec_T (np_linalg_norm b) 0) as [Hb|Hb].
    + exists 0%R. apply cosine_zero_norm; auto.
    + eexists. apply (cosine_nonzero_norms a b Hlen Ha Hb).
Qed.

(** The loop of [query] reads the world without changing it, and collects
    only entries whose score is at least the threshold. *)
Lemma query_scan_spec query_vector filter w results w' :
  query_scan query_vector filter w = (Return results, w') ->
  w' = w /\ Forall (above_floor w) results.
Proof.
  unfold query_scan, bind, get_self. simpl.
  apply (for_in_invariant
           (fun acc w1 => w1 = w /\ Forall (above_floor w) acc)).
  - intros acc [id item] w1 acc' w1' [-> Hacc].
    destruct (rejected filter (VectorItem.metadata item)).
    + unfold ret. intros E. injection E as <- <-. now split.
    + unfold bind, lift, get_config, ret.
      destruct (calculate query_vector (VectorItem.vector item))
        as [similarity|e]; [|discriminate].
      destruct (Rge_bool similarity (similarity_threshold (config w)))
        eqn:Ege; intros E; injection E as <- <-; split; auto.
      apply Forall_app. split; [exact Hacc|].
      constructor; [|constructor].
      now apply Rge_bool_true in Ege.
  - split; [reflexivity | constructor].
Qed.

Lemma query_scan_total query_vector filter w :
  len query_vector = embedding_dim (store w) ->
  well_formed w ->
  total_on_equal_lengths (similarity_strategy (store w)) ->
  exists results, query_scan query_vector filter w = (Return results, w).
Proof.
  intros Hq Hwf Htotal. unfold query_scan, bind, get_self. simpl.
  apply (for_in_returns
           (fun kv => len (VectorItem.vector (snd kv))
                      = embedding_dim (store w))); [|exact Hwf].
  intros acc [id item] w1 Hitem. simpl in Hitem.
  destruct (rejected filter (VectorItem.metadata item)).
  - now exists acc.
  - unfold bind, lift, get_config, ret.
    destruct (Htotal query_vector (VectorItem.vector item)) as [r Hr].
    { unfold len in Hq, Hitem. lia. }
    rewrite Hr.
    destruct (Rge_bool r (similarity_threshold (config w1))); eauto.
Qed.

(** [query] on a vector of the right length runs the loop, sorts and
    slices. *)
Lemma query_unfold query_vector top_k filter w :
  len query_vector = embedding_dim (store w) ->
  query query_vector top_k filter w
  = match query_scan query_vector filter w with
    | (Return results, w') =>
        (Return (slice_to (sort_reverse results) top_k), w')
    | (Raise e, w') => (Raise e, w')
    end.
Proof.
  intros Hq. unfold query, bind, get_self, raise_if. simpl.
  rewrite Hq, Z.eqb_refl. simpl. reflexivity.
Qed.

(** C3. For a query vector of the right length and a positive [top_k], the
    list that [query] returns has at most [top_k] entries, each with a
    score at least the similarity threshold of the configuration, in
    descending order of score; the world is left as it was.  When every
    stored vector has the length [embedding_dim] and the strategy returns a
    number on vectors of equal length, [query] does return a list. *)
Theorem query_top_k :
  forall (w : World) (query_vector : Vector) (top_k : Z)
         (filter : option (Metadata -> bool)),
    len query_vector = embedding_dim (store w) ->
    (0 < top_k)%Z ->
    (forall results w',
        query query_vector top_k filter w = (Return results, w') ->
        w' = w
        /\ (len results <= top_k)%Z
        /\ Forall (above_floor w) results
        /\ StronglySorted desc results)
    /\ (well_formed w ->
        total_on_equal_lengths (similarity_strategy (store w)) ->
        exists results,
          query query_vector top_k filter w = (Return results, w)).
Proof.
  intros w query_vector top_k filter Hq Hk. split.
  - intros results w'. rewrite (query_unfold _ _ _ _ Hq).
    destruct (query_scan query_vector filter w) as [[scanned|e] w1] eqn:Escan;
      [|discriminate].
    intros E. injection E as <- <-.
    apply query_scan_spec in Escan. destruct Escan as [-> Hfloor].
    split; [reflexivity|]. split; [apply slice_to_length; lia|]. split.
    + apply slice_to_Forall.
      revert Hfloor. apply Permutation_Forall. symmetry.
      apply sort_reverse_perm.
    + apply slice_to_sorted. apply sort_reverse_sorted.
  - intros Hwf Htotal. rewrite (query_unfold _ _ _ _ Hq).
    destruct (query_scan_total query_vector filter w Hq Hwf Htotal)
      as [scanned ->].
    eauto.
Qed.

(** ** A store with three records *)

Lemma sample_world_well_formed : well_formed sample_world.
Proof. repeat constructor. Qed.

Lemma norm_e1 : np_linalg_norm [1%R; 0%R] = 1%R.
Proof.
  unfold np_linalg_norm. simpl.
  replace (1 * 1 + (0 * 0 + 0))%R with 1%R by lra. apply sqrt_1.
Qed.

Lemma norm_e2 : np_linalg_norm [0%R; 1%R] = 1%R.
Proof.
  unfold np_linalg_norm. simpl.
  replace (0 * 0 + (1 * 1 + 0))%R with 1%R by lra. apply sqrt_1.
Qed.

Lemma cosine_e1_e1 :
  CosineSimilarity_calculate [1%R; 0%R] [1%R; 0%R] = Return 1%R.
Proof.
  destruct (cosine_nonzero_norms [1%R; 0%R] [1%R; 0%R] eq_refl) as [_ E];
    try (rewrite norm_e1; lra).
  rewrite E, norm_e1. simpl. f_equal. lra.
Qed.

Lemma cosine_e1_e2 :
  CosineSimilarity_calculate [1%R; 0%R] [0%R; 1%R] = Return 0%R.
Proof.
  destruct (cosine_nonzero_norms [1%R; 0%R] [0%R; 1%R] eq_refl) as [_ E];
    try (rewrite ?norm_e1, ?norm_e2; lra).
  rewrite E, norm_e1, norm_e2. simpl. f_equal. lra.
Qed.

Lemma one_above_default_threshold : Rge_bool 1 (8 / 10) = true.
Proof. apply Rge_bool_true. lra. Qed.

Lemma zero_below_default_threshold : Rge_bool 0 (8 / 10) = false.
Proof.
  unfold Rge_bool. destruct (Rge_dec 0 (8 / 10)); [lra | reflexivity].
Qed.

(** The loop keeps ["x"] and ["y"], in the order of insertion, and drops
    ["z"], whose score is below the threshold. *)
Lemma sample_scan :
  query_scan [1%R; 0%R] None sample_world
  = (Return [hit "x" 1; hit "y" 1], sample_world).
Proof.
  unfold query_scan.
  repeat (unfold bind, get_self, get_config, lift, ret; simpl).
  rewrite cosine_e1_e1, one_above_default_threshold. simpl.
  rewrite one_above_default_threshold. simpl.
  rewrite cosine_e1_e2, zero_below_default_threshold.
  reflexivity.
Qed.

Lemma sample_sort :
  sort_reverse [hit "x" 1; hit "y" 1] = [hit "x" 1; hit "y" 1].
Proof.
  unfold sort_reverse. simpl.
  replace (Rlt_bool 1 1) with false; [reflexivity|].
  symmetry. apply Rlt_bool_false. lra.
Qed.

Lemma sample_query (top_k : Z) :
  query [1%R; 0%R] top_k None sample_world
  = (Return (slice_to [hit "x" 1; hit "y" 1] top_k), sample_world).
Proof.
  rewrite query_unfold by reflexivity.
  now rewrite sample_scan, sample_sort.
Qed.

Example sample_query_top_1 :
  query [1%R; 0%R] 1 None sample_world
  = (Return [hit "x" 1], sample_world).
Proof. now rewrite sample_query. Qed.

Lemma query_top_k_witness :
  len [1%R; 0%R] = embedding_dim (store sample_world)
  /\ (0 < 1)%Z
  /\ exists results,
       query [1%R; 0%R] 1 None sample_world = (Return results, sample_world)
       /\ (len results <= 1)%Z
       /\ Forall (above_floor sample_world) results
       /\ StronglySorted desc results.
Proof.
  assert (H1 : len [1%R; 0%R] = embedding_dim (store sample_world))
    by reflexivity.
  assert (H2 : (0 < 1)%Z) by lia.
  split; [exact H1|]. split; [exact H2|].
  destruct (query_top_k sample_world [1%R; 0%R] 1 None H1 H2)
    as [Hprop Hret].
  destruct (Hret sample_world_well_formed cosine_total_on_equal_lengths)
    as [results E].
  exists results. split; [exact E|].
  exact (proj2 (Hprop results sample_world E)).
Defined.

(** ** [top_k] that is not positive *)

Lemma sort_reverse_length l : length (sort_reverse l) = length l.
Proof. apply Permutation_length, sort_reverse_perm. Qed.

Lemma slice_to_nil {A : Type} (l : list A) stop :
  stop = 0%Z \/ (stop < 0 /\ len l <= - stop)%Z -> slice_to l stop = [].
Proof.
  unfold slice_to, len. intros [->|[Hneg Hlen]].
  - reflexivity.
  - destruct (Z.ltb_spec stop 0); [|lia].
    replace (Z.to_nat (Z.of_nat (length l) + stop)) with 0%nat by lia.
    reflexivity.
Qed.

(** When the slice at the end of [query] is empty: for [top_k = 0], and
    for a negative [top_k] when at most [- top_k] records pass the filter
    and the threshold. *)
Theorem query_top_k_nonpositive :
  forall (w : World) (query_vector : Vector) (top_k : Z)
         (filter : option (Metadata -> bool))
         (scanned : list QueryResult.t),
    len query_vector = embedding_dim (store w) ->
    query_scan query_vector filter w = (Return scanned, w) ->
    top_k = 0%Z \/ (top_k < 0 /\ len scanned <= - top_k)%Z ->
    query query_vector top_k filter w = (Return [], w).
Proof.
  intros w query_vector top_k filter scanned Hq Hscan Hk.
  rewrite (query_unfold _ _ _ _ Hq), Hscan.
  rewrite slice_to_nil; [reflexivity|].
  unfold len in *. rewrite sort_reverse_length. exact Hk.
Qed.

Lemma query_top_k_nonpositive_witness :
  len [1%R; 0%R] = embedding_dim (store sample_world)
  /\ query [1%R; 0%R] 0 None sample_world = (Return [], sample_world)
  /\ query [1%R; 0%R] (-2) None sample_world = (Return [], sample_world).
Proof.
  assert (H : len [1%R; 0%R] = embedding_dim (store sample_world))
    by reflexivity.
  split; [exact H|]. split.
  - apply (query_top_k_nonpositive sample_world [1%R; 0%R] 0 None
             [hit "x" 1; hit "y" 1] H sample_scan).
    left. reflexivity.
  - apply (query_top_k_nonpositive sample_world [1%R; 0%R] (-2) None
             [hit "x" 1; hit "y" 1] H sample_scan).
    right. unfold len. simpl. lia.
Defined.

(** C2.  The documentation of [query] has [top_k] as the number of
    entries to return, the first [top_k] of the sorted list, so that a
    [top_k] of zero or less calls for no entry.  The slice
    [results[:top_k]] misses this for a negative [top_k]: with two records
    above the threshold, [top_k = -1] returns the first of them. *)
Lemma query_negative_top_k_counterexample :
  len [1%R; 0%R] = embedding_dim (store sample_world)
  /\ (-1 <= 0)%Z
  /\ outcome (query [1%R; 0%R] (-1) None sample_world)
     = Return [hit "x" 1]
  /\ outcome (query [1%R; 0%R] (-1) None sample_world) <> Return [].
Proof.
  assert (E : outcome (query [1%R; 0%R] (-1) None sample_world)
              = Return [hit "x" 1]) by now rewrite sample_query.
  split; [reflexivity|]. split; [lia|]. split; [exact E|].
  rewrite E. discriminate.
Qed.

(** ** What a query reads *)

Lemma query_scan_loop self query_vector filter items :
  forall results w,
    for_in items results
      (fun results '(id, item) =>
         if rejected filter (VectorItem.metadata item) then ret results
         else
           similarity <-
             lift (@calculate (similarity_strategy self) query_vector
                     (VectorItem.vector item)) ;;
           _config <- get_config ;;
           if Rge_bool similarity (similarity_threshold _config) then
             ret (results ++ [{| QueryResult.id := id;
                                 QueryResult.similarity := similarity;
                                 QueryResult.metadata :=
                                   VectorItem.metadata item |}])
           else ret results) w
    = (scan (similarity_strategy self) (similarity_threshold (config w))
         query_vector filter items results, w).
Proof.
  induction items as [|[id item] items IH]; intros results w; simpl.
  - reflexivity.
  - unfold bind, lift, get_config, ret in *.
    destruct (rejected filter (VectorItem.metadata item)).
    + apply IH.
    + destruct (calculate query_vector (VectorItem.vector item))
        as [similarity|e]; simpl; [|reflexivity].
      destruct (Rge_bool similarity (similarity_threshold (config w)));
        apply IH.
Qed.

Lemma query_scan_reads query_vector filter w :
  query_scan query_vector filter w
  = (scan (similarity_strategy (store w)) (similarity_threshold (config w))
       query_vector filter (_items (store w)) [], w).
Proof.
  unfold query_scan, bind at 1, get_self. apply query_scan_loop.
Qed.

(** The outcome of [query] as a function of the store and of the value
    that [similarity_threshold] has when [query] is called. *)
Lemma query_reads query_vector top_k filter w :
  query query_vector top_k filter w
  = (if (len query_vector =? embedding_dim (store w))%Z then
       obind (scan (similarity_strategy (store w))
                (similarity_threshold (config w)) query_vector filter
                (_items (store w)) [])
         (fun results => Return (slice_to (sort_reverse results) top_k))
     else Raise (ValueError ("Query vector dimension must be "
                             ++ fmt (embedding_dim (store w)))),
     w).
Proof.
  destruct (Z.eqb_spec (len query_vector) (embedding_dim (store w)))
    as [Hq|Hq].
  - rewrite (query_unfold _ _ _ _ Hq), query_scan_reads.
    now destruct (scan _ _ _ _ _ _).
  - unfold query, bind, get_self, raise_if. simpl.
    apply Z.eqb_neq in Hq. now rewrite Hq.
Qed.

Lemma query_results_above_floor query_vector top_k filter w results w' :
  query query_vector top_k filter w = (Return results, w') ->
  Forall (above_floor w) results.
Proof.
  destruct (Z.eqb_spec (len query_vector) (embedding_dim (store w)))
    as [Hq|Hq].
  - rewrite (query_unfold _ _ _ _ Hq).
    destruct (query_scan query_vector filter w) as [[scanned|e] w1] eqn:E;
      [|discriminate].
    intros H. injection H as <- <-.
    apply query_scan_spec in E. destruct E as [_ Hfloor].
    apply slice_to_Forall. revert Hfloor. apply Permutation_Forall.
    symmetry. apply sort_reverse_perm.
  - rewrite query_reads. apply Z.eqb_neq in Hq. rewrite Hq. discriminate.
Qed.

(** The outcome of [add] as a function of the store and of the value that
    [max_items] has when [add] is called. *)
Lemma add_reads id vector metadata w :
  outcome (add id vector metadata w)
  = if negb (len vector =? embedding_dim (store w))%Z then
      Raise (ValueError ("Vector dimension must be "
                         ++ fmt (embedding_dim (store w))))
    else if (len (_items (store w)) >=? max_items (config w))%Z then
      Raise (RuntimeError "Database capacity reached")
    else Return true.
Proof.
  step. destruct (len vector =? embedding_dim (store w))%Z; simpl;
    [|reflexivity].
  now destruct (len (_items (store w)) >=? max_items (config w))%Z.
Qed.

(** ** The configuration object *)

(** C1, as the code has it.  The store holds a reference to the
    configuration object and reads it at each call: [add] compares the
    count with the value [max_items] has at the time of the call, and
    [query] keeps the scores that reach the value [similarity_threshold]
    has at the time of the call.  A change of [default_embedding_dim] has
    no effect on either. *)
Theorem config_read_at_each_call :
  forall (w : World) (n : Z) (x : R) (id : string) (vector : Vector)
         (metadata : option Metadata) (query_vector : Vector) (top_k : Z)
         (filter : option (Metadata -> bool)),
    outcome (add id vector metadata (set_max_items n w))
    = (if negb (len vector =? embedding_dim (store w))%Z then
         Raise (ValueError ("Vector dimension must be "
                            ++ fmt (embedding_dim (store w))))
       else if (len (_items (store w)) >=? n)%Z then
         Raise (RuntimeError "Database capacity reached")
       else Return true)
    /\ outcome (query query_vector top_k filter
                  (set_similarity_threshold x w))
       = (if (len query_vector =? embedding_dim (store w))%Z then
            obind (scan (similarity_strategy (store w)) x query_vector
                     filter (_items (store w)) [])
              (fun results => Return (slice_to (sort_reverse results) top_k))
          else Raise (ValueError ("Query vector dimension must be "
                                  ++ fmt (embedding_dim (store w)))))
    /\ (forall results,
          outcome (query query_vector top_k filter
                     (set_similarity_threshold x w)) = Return results ->
          Forall (fun r => (QueryResult.similarity r >= x)%R) results)
    /\ outcome (add id vector metadata (set_default_embedding_dim n w))
       = outcome (add id vector metadata w)
    /\ outcome (query query_vector top_k filter
                  (set_default_embedding_dim n w))
       = outcome (query query_vector top_k filter w).
Proof.
  intros w n x id vector metadata query_vector top_k filter.
  split; [rewrite add_reads; reflexivity|].
  split; [rewrite query_reads; reflexivity|].
  split.
  - intros results E.
    destruct (query query_vector top_k filter (set_similarity_threshold x w))
      as [o w'] eqn:Eq.
    simpl in E. subst o.
    exact (query_results_above_floor _ _ _ _ _ _ Eq).
  - split.
    + rewrite !add_reads. reflexivity.
    + rewrite !query_reads. reflexivity.
Qed.

Lemma Rge_bool_false x y : (x < y)%R -> Rge_bool x y = false.
Proof.
  intros H. unfold Rge_bool. destruct (Rge_dec x y); [lra | reflexivity].
Qed.

Lemma sample_query_threshold_2 (top_k : Z) :
  outcome (query [1%R; 0%R] top_k None
             (set_similarity_threshold 2 sample_world))
  = Return [].
Proof.
  rewrite query_reads. simpl.
  rewrite cosine_e1_e1, cosine_e1_e2. simpl.
  rewrite (Rge_bool_false 1 2), (Rge_bool_false 0 2) by lra. simpl.
  unfold slice_to. destruct (top_k <? 0)%Z; now rewrite firstn_nil.
Qed.

(** C1, as the specification has it, fails: on a store that is already
    constructed, setting [max_items] to [0] turns an [add] that succeeds
    into one that raises, and raising [similarity_threshold] to [2] empties
    the result of a [query]. *)
Lemma config_change_counterexample :
  let w := ChromaVectorDB_init None 2 None in
  (outcome (add "x" [1%R; 0%R] None w) = Return true
   /\ outcome (add "x" [1%R; 0%R] None (set_max_items 0 w))
      = Raise (RuntimeError "Database capacity reached")
   /\ outcome (add "x" [1%R; 0%R] None (set_max_items 0 w))
      <> outcome (add "x" [1%R; 0%R] None w))
  /\ (outcome (query [1%R; 0%R] 5 None sample_world)
      = Return [hit "x" 1; hit "y" 1]
      /\ outcome (query [1%R; 0%R] 5 None
                    (set_similarity_threshold 2 sample_world))
         = Return []
      /\ outcome (query [1%R; 0%R] 5 None
                    (set_similarity_threshold 2 sample_world))
         <> outcome (query [1%R; 0%R] 5 None sample_world)).
Proof.
  split.
  - repeat split. discriminate.
  - rewrite sample_query_threshold_2, sample_query. repeat split.
    discriminate.
Qed.

Lemma config_read_at_each_call_witness :
  outcome (add "x" [1%R; 0%R] None
             (set_max_items 0 (ChromaVectorDB_init None 2 None)))
  = Raise (RuntimeError "Database capacity reached")
  /\ outcome (add "x" [1%R; 0%R] None
                (set_max_items 1 (ChromaVectorDB_init None 2 None)))
     = Return true.
Proof.
  split.
  - exact (proj1 (config_read_at_each_call
                    (ChromaVectorDB_init None 2 None) 0 0 "x"
                    [1%R; 0%R] None [] 0 None)).
  - exact (proj1 (config_read_at_each_call
                    (ChromaVectorDB_init None 2 None) 1 0 "x"
                    [1%R; 0%R] None [] 0 None)).
Defined.

(** ** Batches *)

Lemma insert_item_outcome item w :
  insert_item item w
  = match item_id item, item_vector item with
    | None, _ => (Raise (KeyError "id"), w)
    | Some _, None => (Raise (KeyError "vector"), w)
    | Some id, Some vector => add id vector (item_metadata item) w
    end.
Proof.
  unfold insert_item, getitem, bind, ret, raise.
  destruct (item_id item), (item_vector item); reflexivity.
Qed.

(** An insertion that raises leaves the world as it was. *)
Lemma add_raise_unchanged id vector metadata w e w' :
  add id vector metadata w = (Raise e, w') -> w' = w.
Proof.
  step. destruct (len vector =? embedding_dim (store w))%Z; simpl.
  - destruct (len (_items (store w)) >=? max_items (config w))%Z; simpl;
      intros E; now inversion E.
  - intros E. now inversion E.
Qed.

Lemma insert_item_raise_unchanged item w e w' :
  insert_item item w = (Raise e, w') -> w' = w.
Proof.
  rewrite insert_item_outcome.
  destruct (item_id item), (item_vector item); try (intros E; now inversion E).
  apply add_raise_unchanged.
Qed.

(** One iteration of the loop of [batch_add]. *)
Lemma batch_add_step item (success_count : Z)
    (failed_items : list FailedItem) w :
  try_except
    (id <- getitem (item_id item) "id" ;;
     vector <- getitem (item_vector item) "vector" ;;
     add id vector (item_metadata item) ;;
     ret ((success_count + 1)%Z, failed_items))
    (fun e =>
       ret (success_count,
            failed_items ++ [{| failed_id := item_id item;
                                error := str e |}])) w
  = match insert_item item w with
    | (Return _, w1) => (Return ((success_count + 1)%Z, failed_items), w1)
    | (Raise e, w1) =>
        (Return (success_count,
                 failed_items ++ [{| failed_id := item_id item;
                                     error := str e |}]), w1)
    end.
Proof.
  unfold try_except, insert_item, getitem, bind, ret, raise.
  destruct (item_id item) as [id|]; [|reflexivity].
  destruct (item_vector item) as [vector|]; [|reflexivity].
  now destruct (add id vector (item_metadata item) w) as [[b|e] w1].
Qed.

(** The loop of [batch_add], started with any values of its two local
    variables. *)
Lemma batch_add_loop items :
  forall (success_count : Z) (failed_items : list FailedItem) (w : World),
    for_in items (success_count, failed_items)
      (fun '(success_count, failed_items) item =>
         try_except
           (id <- getitem (item_id item) "id" ;;
            vector <- getitem (item_vector item) "vector" ;;
            add id vector (item_metadata item) ;;
            ret ((success_count + 1)%Z, failed_items))
           (fun e =>
              ret (success_count,
                   failed_items ++ [{| failed_id := item_id item;
                                       error := str e |}]))) w
    = (Return ((success_count
                + len (List.filter succeeded (fst (attempts items w))))%Z,
               failed_items ++ failures (fst (attempts items w))),
       snd (attempts items w)).
Proof.
  induction items as [|item items IH]; intros success_count failed_items w.
  - simpl. unfold ret, len. simpl.
    now rewrite Z.add_0_r, app_nil_r.
  - cbn [for_in attempts].
    destruct (insert_item item w) as [[b|e] w1] eqn:E.
    + erewrite bind_return by (rewrite batch_add_step, E; reflexivity).
      rewrite IH. destruct (attempts items w1) as [rest w2].
      cbn [fst snd List.filter succeeded failures]. unfold len.
      cbn [length]. do 2 f_equal. f_equal. lia.
    + erewrite bind_return by (rewrite batch_add_step, E; reflexivity).
      rewrite IH. destruct (attempts items w1) as [rest w2]. simpl.
      now rewrite <- app_assoc.
Qed.

(** [batch_add] returns, in the world left by the insertions. *)
Lemma batch_add_runs items w :
  exists report,
    batch_add items w = (Return report, snd (attempts items w)).
Proof.
  unfold batch_add. erewrite bind_return by apply batch_add_loop.
  eexists. reflexivity.
Qed.

(** C7. [batch_add] returns a report for every list of items and never
    raises.  The report is that of inserting the items one after the
    other in the order of the list, each in the world left by the ones
    before it, whether these succeeded or raised: [success_count] is the
    number of insertions that returned, [failed_items] lists, in order, the
    id and the message of the exception of each insertion that raised, and
    the world is the one left by the last item. *)
Theorem batch_add_report :
  forall (items : list BatchItem) (w : World),
    batch_add items w
    = (Return {| success_count :=
                   len (List.filter succeeded (fst (attempts items w)));
                 failed_count := len (failures (fst (attempts items w)));
                 failed_items := failures (fst (attempts items w)) |},
       snd (attempts items w))
    /\ map fst (fst (attempts items w)) = items
    /\ (len (List.filter succeeded (fst (attempts items w)))
        + len (failures (fst (attempts items w))) = len items)%Z.
Proof.
  intros items w. split; [|split].
  - unfold batch_add.
    erewrite bind_return by apply batch_add_loop.
    reflexivity.
  - revert w. induction items as [|item items IH]; intros w; simpl.
    + reflexivity.
    + destruct (insert_item item w) as [o w1].
      specialize (IH w1). destruct (attempts items w1) as [rest w2].
      simpl in *. now rewrite IH.
  - revert w. unfold len.
    induction items as [|item items IH]; intros w; simpl.
    + reflexivity.
    + destruct (insert_item item w) as [[b|e] w1];
        specialize (IH w1); destruct (attempts items w1) as [rest w2];
        cbn [fst snd List.filter succeeded failures length] in *; lia.
Qed.

Example batch_with_one_mismatch :
  outcome
    (batch_add
       [{| item_id := Some "a"; item_vector := Some [1%R; 0%R];
           item_metadata := None |};
        {| item_id := Some "b"; item_vector := Some [1%R];
           item_metadata := None |};
        {| item_id := Some "c"; item_vector := Some [0%R; 1%R];
           item_metadata := Some [("k", PyBool true)] |};
        {| item_id := Some "d"; item_vector := Some [1%R; 1%R];
           item_metadata := None |}]
       (ChromaVectorDB_init None 2 None))
  = Return {| success_count := 3;
              failed_count := 1;
              failed_items :=
                [{| failed_id := Some "b";
                    error := "Vector dimension must be 2" |}] |}.
Proof. reflexivity. Qed.

(** Capacity that runs out in the middle of a batch: the items before it
    are stored, the later ones are reported, and so is an item without
    the key ["id"]. *)
Example batch_over_capacity :
  let r :=
    batch_add
      [{| item_id := Some "a"; item_vector := Some [1%R; 0%R];
          item_metadata := None |};
       {| item_id := None; item_vector := Some [1%R; 0%R];
          item_metadata := None |};
       {| item_id := Some "c"; item_vector := Some [0%R; 1%R];
          item_metadata := None |}]
      (set_max_items 1 (ChromaVectorDB_init None 2 None)) in
  outcome r
  = Return {| success_count := 1;
              failed_count := 2;
              failed_items :=
                [{| failed_id := None; error := "'id'" |};
                 {| failed_id := Some "c";
                    error := "Database capacity reached" |}] |}
  /\ Dict.keys (_items (store (world r))) = ["a"].
Proof. split; reflexivity. Qed.

(** ** The invariant of the store *)

Section ForallDict.
Variable V : Type.
Variable P : string * V -> Prop.

Lemma Forall_set k v (d : Dict.t V) :
  Forall P d -> P (k, v) -> Forall P (Dict.set k v d).
Proof.
  intros Hd Hv. induction d as [|[k' v'] d IH]; simpl.
  - now repeat constructor.
  - inversion Hd; subst.
    destruct (String.eqb k' k); constructor; auto.
Qed.

Lemma Forall_mutate k (f : V -> V) (d : Dict.t V) :
  Forall P d -> (forall k' v, P (k', v) -> P (k', f v)) ->
  Forall P (Dict.mutate k f d).
Proof.
  intros Hd Hf. induction d as [|[k' v'] d IH]; simpl.
  - constructor.
  - inversion Hd; subst.
    destruct (String.eqb k' k); constructor; auto.
Qed.

Lemma Forall_del k (d : Dict.t V) : Forall P d -> Forall P (Dict.del k d).
Proof.
  intros Hd. induction d as [|[k' v'] d IH]; simpl.
  - constructor.
  - inversion Hd; subst.
    destruct (String.eqb k' k); [|constructor]; auto.
Qed.
End ForallDict.

Lemma well_formed_init instance embedding_dim similarity_strategy :
  well_formed (ChromaVectorDB_init instance embedding_dim similarity_strategy).
Proof. constructor. Qed.

Lemma well_formed_add id vector metadata w :
  well_formed w -> well_formed (exec (add id vector metadata) w).
Proof.
  unfold well_formed. step. intros Hwf.
  destruct (Z.eqb_spec (len vector) (embedding_dim (store w))) as [Hlen|];
    simpl; [|exact Hwf].
  destruct (len (_items (store w)) >=? max_items (config w))%Z; simpl;
    [exact Hwf|].
  apply Forall_set; [exact Hwf | exact Hlen].
Qed.

Lemma well_formed_update id vector metadata w :
  well_formed w -> well_formed (exec (update id vector metadata) w).
Proof.
  unfold well_formed. step. intros Hwf.
  destruct (Dict.contains id (_items (store w))); simpl; [|exact Hwf].
  destruct vector as [v|]; simpl.
  - destruct (Z.eqb_spec (len v) (embedding_dim (store w))) as [Hlen|];
      simpl; [|exact Hwf].
    destruct metadata as [m|]; simpl;
      repeat (apply Forall_mutate; [|now intros]); auto.
  - destruct metadata as [m|]; simpl;
      repeat (apply Forall_mutate; [|now intros]); auto.
Qed.

Lemma well_formed_delete id w :
  well_formed w -> well_formed (exec (delete id) w).
Proof.
  unfold well_formed. step. intros Hwf.
  destruct (Dict.contains id (_items (store w))); simpl; [|exact Hwf].
  now apply Forall_del.
Qed.

Lemma well_formed_attempts items :
  forall w, well_formed w -> well_formed (snd (attempts items w)).
Proof.
  induction items as [|item items IH]; intros w Hwf; simpl.
  - exact Hwf.
  - destruct (insert_item item w) as [o w1] eqn:E.
    specialize (IH w1). destruct (attempts items w1) as [rest w2].
    simpl in *. apply IH.
    rewrite insert_item_outcome in E.
    destruct (item_id item) as [id|], (item_vector item) as [vector|];
      try (injection E as <- <-; exact Hwf).
    replace w1 with (exec (add id vector (item_metadata item)) w)
      by (unfold exec; now rewrite E).
    now apply well_formed_add.
Qed.

(** Every stored vector of a reachable store has the length
    [embedding_dim]. *)
Lemma reachable_well_formed w : reachable w -> well_formed w.
Proof.
  induction 1 as [instance embedding_dim similarity_strategy|c w Hw IH].
  - apply well_formed_init.
  - destruct c; simpl.
    + exact IH.
    + now apply well_formed_add.
    + unfold exec. destruct (batch_add_runs items w) as [report ->]. simpl.
      now apply well_formed_attempts.
    + now apply well_formed_update.
    + now apply well_formed_delete.
    + unfold exec. rewrite query_reads. exact IH.
    + constructor.
    + exact IH.
Qed.

Lemma unique_ids_add id vector metadata w :
  unique_ids w -> unique_ids (exec (add id vector metadata) w).
Proof.
  unfold unique_ids. step. intros Hnd.
  destruct (len vector =? embedding_dim (store w))%Z; simpl; [|exact Hnd].
  destruct (len (_items (store w)) >=? max_items (config w))%Z; simpl;
    [exact Hnd|].
  now apply NoDup_keys_set.
Qed.

Lemma unique_ids_update id vector metadata w :
  unique_ids w -> unique_ids (exec (update id vector metadata) w).
Proof.
  unfold unique_ids. step. intros Hnd.
  destruct (Dict.contains id (_items (store w))); simpl; [|exact Hnd].
  destruct vector as [v|]; simpl.
  - destruct (len v =? embedding_dim (store w))%Z; simpl; [|exact Hnd].
    destruct metadata as [m|]; simpl; now rewrite !keys_mutate.
  - destruct metadata as [m|]; simpl; now rewrite ?keys_mutate.
Qed.

Lemma unique_ids_delete id w :
  unique_ids w -> unique_ids (exec (delete id) w).
Proof.
  unfold unique_ids. step. intros Hnd.
  destruct (Dict.contains id (_items (store w))); simpl; [|exact Hnd].
  now apply NoDup_keys_del.
Qed.

Lemma unique_ids_attempts items :
  forall w, unique_ids w -> unique_ids (snd (attempts items w)).
Proof.
  induction items as [|item items IH]; intros w Hnd; simpl.
  - exact Hnd.
  - destruct (insert_item item w) as [o w1] eqn:E.
    specialize (IH w1). destruct (attempts items w1) as [rest w2].
    simpl in *. apply IH.
    rewrite insert_item_outcome in E.
    destruct (item_id item) as [id|], (item_vector item) as [vector|];
      try (injection E as <- <-; exact Hnd).
    replace w1 with (exec (add id vector (item_metadata item)) w)
      by (unfold exec; now rewrite E).
    now apply unique_ids_add.
Qed.

(** The association list of a reachable store is a dictionary: no id
    occurs twice in it. *)
Lemma reachable_unique_ids w : reachable w -> unique_ids w.
Proof.
  induction 1 as [instance embedding_dim similarity_strategy|c w Hw IH].
  - constructor.
  - destruct c; simpl.
    + exact IH.
    + now apply unique_ids_add.
    + unfold exec. destruct (batch_add_runs items w) as [report ->]. simpl.
      now apply unique_ids_attempts.
    + now apply unique_ids_update.
    + now apply unique_ids_delete.
    + unfold exec. rewrite query_reads. exact IH.
    + constructor.
    + exact IH.
Qed.

(** ** Lookups *)

(** A record that [add] stored is the one that [get] returns. *)
Lemma add_then_get id vector metadata w :
  outcome (add id vector metadata w) = Return true ->
  outcome (get id (exec (add id vector metadata) w))
  = Return (Some (VectorItem.init id vector metadata)).
Proof.
  step.
  destruct (len vector =? embedding_dim (store w))%Z; simpl;
    [|discriminate].
  destruct (len (_items (store w)) >=? max_items (config w))%Z; simpl;
    [discriminate|].
  intros _. now rewrite get_set_same.
Qed.

(** After [delete], [get] finds nothing under the id. *)
Lemma delete_then_get id w :
  unique_ids w -> outcome (get id (exec (delete id) w)) = Return None.
Proof.
  unfold unique_ids. step. intros Hnd.
  destruct (Dict.contains id (_items (store w))) eqn:E; simpl.
  - now rewrite get_del_same.
  - unfold Dict.contains in E.
    now destruct (Dict.get id (_items (store w))).
Qed.

(** An observer added with [add_observer] receives the events published
    afterwards. *)
Lemma add_observer_subscribes observer w :
  In observer (_observers (store (exec (add_observer observer) w))).
Proof. step. apply in_or_app. right. now left. Qed.

(** ** Further properties of the strategies *)

Lemma dot_comm (a b : Vector) : dot a b = dot b a.
Proof.
  revert b. induction a as [|x a IH]; intros [|y b]; simpl; try reflexivity.
  rewrite IH. lra.
Qed.

Lemma dot_self_nonneg (x : Vector) : (0 <= dot x x)%R.
Proof.
  induction x as [|r x IH]; simpl.
  - lra.
  - pose proof (Rle_0_sqr r) as Hr. unfold Rsqr in Hr. lra.
Qed.

Lemma norm_nonneg (x : Vector) : (0 <= np_linalg_norm x)%R.
Proof. unfold np_linalg_norm. apply sqrt_pos. Qed.

Lemma euclidean_equal_lengths (a b : Vector) :
  length a = length b ->
  EuclideanSimilarity_calculate a b
  = Return (1 / (1 + np_linalg_norm (sub a b)))%R.
Proof.
  intros Hlen. unfold EuclideanSimilarity_calculate, np_subtract, len.
  rewrite Hlen, Z.eqb_refl. simpl.
  apply np_divide_nonzero. pose proof (norm_nonneg (sub a b)). lra.
Qed.

Lemma dot_sub_swap (a b : Vector) :
  dot (sub a b) (sub a b) = dot (sub b a) (sub b a).
Proof.
  revert b. induction a as [|x a IH]; intros [|y b]; simpl; try reflexivity.
  rewrite IH. lra.
Qed.


(** X6. Both strategies are symmetric on vectors of equal length. *)
Theorem strategies_symmetric :
  forall a b : Vector,
    length a = length b ->
    @calculate CosineSimilarity a b = @calculate CosineSimilarity b a
    /\ @calculate EuclideanSimilarity a b
       = @calculate EuclideanSimilarity b a.
Proof.
  intros a b Hlen. simpl. split.
  - unfold CosineSimilarity_calculate.
    rewrite (np_dot_equal_lengths a b Hlen).
    rewrite (np_dot_equal_lengths b a (eq_sym Hlen)). simpl.
    rewrite (dot_comm b a), orb_comm.
    now rewrite (Rmult_comm (np_linalg_norm b)).
  - rewrite (euclidean_equal_lengths a b Hlen).
    rewrite (euclidean_equal_lengths b a (eq_sym Hlen)).
    unfold np_linalg_norm. now rewrite dot_sub_swap.
Qed.

Lemma strategies_symmetric_witness :
  length [1%R; 0%R] = length [0%R; 1%R]
  /\ @calculate CosineSimilarity [0%R; 1%R] [1%R; 0%R] = Return 0%R.
Proof.
  assert (H : length [1%R; 0%R] = length [0%R; 1%R]) by reflexivity.
  split; [exact H|].
  rewrite <- (proj1 (strategies_symmetric [1%R; 0%R] [0%R; 1%R] H)).
  exact cosine_e1_e2.
Defined.

(** ** Further properties of dictionaries *)

Section DictLookups.
Variable V : Type.
Implicit Types (d : Dict.t V) (k : string) (v : V).

Lemma get_set_other k k' v d :
  k' <> k -> Dict.get k' (Dict.set k v d) = Dict.get k' d.
Proof.
  intros Hne. induction d as [|[k0 v0] d IH]; simpl.
  - destruct (String.eqb_spec k k'); [congruence | reflexivity].
  - destruct (String.eqb_spec k0 k) as [->|Hk]; simpl.
    + destruct (String.eqb_spec k k'); [congruence|].
      reflexivity.
    + destruct (String.eqb k0 k'); [reflexivity | exact IH].
Qed.

Lemma get_mutate_same k (f : V -> V) d :
  Dict.get k (Dict.mutate k f d) = option_map f (Dict.get k d).
Proof.
  induction d as [|[k0 v0] d IH]; simpl.
  - reflexivity.
  - destruct (String.eqb k0 k) eqn:E; simpl; rewrite E; auto.
Qed.

Lemma get_mutate_other k k' (f : V -> V) d :
  k' <> k -> Dict.get k' (Dict.mutate k f d) = Dict.get k' d.
Proof.
  intros Hne. induction d as [|[k0 v0] d IH]; simpl.
  - reflexivity.
  - destruct (String.eqb_spec k0 k) as [->|Hk]; simpl.
    + destruct (String.eqb_spec k k'); [congruence | reflexivity].
    + destruct (String.eqb k0 k'); [reflexivity | exact IH].
Qed.

Lemma get_del_other k k' d :
  k' <> k -> Dict.get k' (Dict.del k d) = Dict.get k' d.
Proof.
  intros Hne. induction d as [|[k0 v0] d IH]; simpl.
  - reflexivity.
  - destruct (String.eqb_spec k0 k) as [->|Hk]; simpl.
    + destruct (String.eqb_spec k k'); [congruence | reflexivity].
    + destruct (String.eqb k0 k'); [reflexivity | exact IH].
Qed.

Lemma del_set_absent k v d :
  Dict.get k d = None -> Dict.del k (Dict.set k v d) = d.
Proof.
  induction d as [|[k0 v0] d IH]; simpl.
  - now rewrite String.eqb_refl.
  - destruct (String.eqb k0 k) eqn:E; [discriminate|].
    intros H. simpl. rewrite E. now rewrite IH.
Qed.

Lemma length_mutate k (f : V -> V) d :
  length (Dict.mutate k f d) = length d.
Proof.
  induction d as [|[k0 v0] d IH]; simpl.
  - reflexivity.
  - destruct (String.eqb k0 k); simpl; [reflexivity | now rewrite IH].
Qed.

Lemma length_del_present k d :
  Dict.contains k d = true -> S (length (Dict.del k d)) = length d.
Proof.
  unfold Dict.contains. induction d as [|[k0 v0] d IH]; simpl.
  - discriminate.
  - destruct (String.eqb k0 k); simpl; [reflexivity|].
    intros H. now rewrite IH.
Qed.

Lemma length_del_le k d : (length (Dict.del k d) <= length d)%nat.
Proof.
  induction d as [|[k0 v0] d IH]; simpl.
  - lia.
  - destruct (String.eqb k0 k); simpl; lia.
Qed.

Lemma length_set_le k v d : (length (Dict.set k v d) <= S (length d))%nat.
Proof.
  induction d as [|[k0 v0] d IH]; simpl.
  - lia.
  - destruct (String.eqb k0 k); simpl; lia.
Qed.
End DictLookups.

(** ** Further properties of the records *)

(** The world that a successful [add] leaves. *)
Lemma add_success id vector metadata w :
  len vector = embedding_dim (store w) ->
  (len (_items (store w)) < max_items (config w))%Z ->
  add id vector metadata w
  = (Return true,
     with_published
       (published w ++ [{| event_type := "add";
                           data := AddData id metadata;
                           receivers := _observers (store w) |}])
       (with_items
          (Dict.set id (VectorItem.init id vector metadata)
             (_items (store w))) w)).
Proof.
  intros Hlen Hcap. step. rewrite Hlen, Z.eqb_refl. simpl.
  replace (len (_items (store w)) >=? max_items (config w))%Z with false.
  - reflexivity.
  - symmetry. unfold Z.geb.
    destruct (Z.compare_spec (len (_items (store w)))
                (max_items (config w))); try reflexivity; lia.
Qed.

(** X7. An [add] of a vector of the right length to a store below its
    capacity returns [True] and stores the record under the id: [get]
    returns it, the count grows by one for a new id and stays for an id
    that was stored already (the old record is overwritten), and one event
    of type ["add"] with the id and the metadata is published. *)
Theorem add_stores_record :
  forall (w : World) (id : string) (vector : Vector)
         (metadata : option Metadata),
    len vector = embedding_dim (store w) ->
    (len (_items (store w)) < max_items (config w))%Z ->
    outcome (add id vector metadata w) = Return true
    /\ outcome (get id (exec (add id vector metadata) w))
       = Return (Some (VectorItem.init id vector metadata))
    /\ outcome (count (exec (add id vector metadata) w))
       = Return (if Dict.contains id (_items (store w))
                 then len (_items (store w))
                 else (len (_items (store w)) + 1)%Z)
    /\ published (exec (add id vector metadata) w)
       = published w ++ [{| event_type := "add";
                            data := AddData id metadata;
                            receivers := _observers (store w) |}].
Proof.
  intros w id vector metadata Hlen Hcap.
  unfold exec. rewrite (add_success id vector metadata w Hlen Hcap).
  split; [reflexivity|]. split; [|split; [|reflexivity]].
  - step. now rewrite get_set_same.
  - step. f_equal. unfold len.
    destruct (Dict.contains id (_items (store w))) eqn:E.
    + now rewrite length_set_present.
    + rewrite length_set_absent by exact E. lia.
Qed.

Lemma add_stores_record_witness :
  len [0%R; 1%R] = embedding_dim (store sample_world)
  /\ (len (_items (store sample_world)) < max_items (config sample_world))%Z
  /\ outcome (count (exec (add "x" [0%R; 1%R] None) sample_world))
     = Return 3%Z
  /\ outcome (count (exec (add "n" [0%R; 1%R] None) sample_world))
     = Return 4%Z.
Proof.
  assert (H1 : len [0%R; 1%R] = embedding_dim (store sample_world))
    by reflexivity.
  assert (H2 : (len (_items (store sample_world))
                < max_items (config sample_world))%Z) by reflexivity.
  split; [exact H1|]. split; [exact H2|]. split.
  - exact (proj1 (proj2 (proj2
      (add_stores_record sample_world "x" [0%R; 1%R] None H1 H2)))).
  - exact (proj1 (proj2 (proj2
      (add_stores_record sample_world "n" [0%R; 1%R] None H1 H2)))).
Defined.

(** X8. [add], [update] and [delete] on one id leave what [get] returns
    for every other id as it was. *)
Theorem other_ids_untouched :
  forall (w : World) (id id' : string) (vector : Vector)
         (new_vector : option Vector) (metadata new_metadata : option Metadata),
    id' <> id ->
    outcome (get id' (exec (add id vector metadata) w))
    = outcome (get id' w)
    /\ outcome (get id' (exec (update id new_vector new_metadata) w))
       = outcome (get id' w)
    /\ outcome (get id' (exec (delete id) w)) = outcome (get id' w).
Proof.
  intros w id id' vector new_vector metadata new_metadata Hne.
  split; [|split]; step.
  - destruct (len vector =? embedding_dim (store w))%Z; simpl;
      [|reflexivity].
    destruct (len (_items (store w)) >=? max_items (config w))%Z; simpl;
      [reflexivity|].
    now rewrite get_set_other.
  - destruct (Dict.contains id (_items (store w))); simpl; [|reflexivity].
    destruct new_vector as [v|]; simpl.
    + destruct (len v =? embedding_dim (store w))%Z; simpl;
        [|reflexivity].
      destruct new_metadata as [m|]; simpl;
        now rewrite ?get_mutate_other.
    + destruct new_metadata as [m|]; simpl;
        now rewrite ?get_mutate_other.
  - destruct (Dict.contains id (_items (store w))); simpl; [|reflexivity].
    now rewrite get_del_other.
Qed.

Lemma other_ids_untouched_witness :
  "y" <> "x"
  /\ outcome (get "y" (exec (delete "x") sample_world))
     = Return (Some (VectorItem.init "y" [1%R; 0%R] None)).
Proof.
  assert (H : "y" <> "x") by discriminate.
  split; [exact H|].
  rewrite (proj2 (proj2 (other_ids_untouched sample_world "x" "y" []
                           None None None H))).
  reflexivity.
Defined.

(** X9. [update] and [delete] of an id that is not stored return [False]
    and leave the world as it was: nothing is published, and [update] does
    not even check the length of the vector. *)
Theorem absent_id_is_no_op :
  forall (w : World) (id : string) (vector : option Vector)
         (metadata : option Metadata),
    outcome (get id w) = Return None ->
    update id vector metadata w = (Return false, w)
    /\ delete id w = (Return false, w).
Proof.
  intros w id vector metadata. step. intros Hget. injection Hget as Hget.
  unfold Dict.contains. rewrite Hget. simpl. split; reflexivity.
Qed.

Lemma absent_id_is_no_op_witness :
  outcome (get "q" sample_world) = Return None
  /\ update "q" (Some [1%R]) None sample_world = (Return false, sample_world)
  /\ delete "q" sample_world = (Return false, sample_world).
Proof.
  assert (H : outcome (get "q" sample_world) = Return None) by reflexivity.
  split; [exact H|].
  exact (absent_id_is_no_op sample_world "q" (Some [1%R]) None H).
Defined.

(** X10. An [update] of a stored id, with a vector of the right length if
    one is given, returns [True] and replaces as a whole the vector and
    the metadata that are given; the id and the creation date of the
    record, the order of the ids and the count stay, and one event of type
    ["update"] is published. *)
Theorem update_replaces :
  forall (w : World) (id : string) (item : VectorItem.t)
         (vector : option Vector) (metadata : option Metadata),
    outcome (get id w) = Return (Some item) ->
    (forall v, vector = Some v -> len v = embedding_dim (store w)) ->
    outcome (update id vector metadata w) = Return true
    /\ outcome (get id (exec (update id vector metadata) w))
       = Return (Some {| VectorItem.id := VectorItem.id item;
                         VectorItem.vector :=
                           match vector with
                           | Some v => v
                           | None => VectorItem.vector item
                           end;
                         VectorItem.metadata :=
                           match metadata with
                           | Some m => m
                           | None => VectorItem.metadata item
                           end;
                         VectorItem.created_at :=
                           VectorItem.created_at item |})
    /\ Dict.keys (_items (store (exec (update id vector metadata) w)))
       = Dict.keys (_items (store w))
    /\ published (exec (update id vector metadata) w)
       = published w ++ [{| event_type := "update";
                            data := IdData id;
                            receivers := _observers (store w) |}].
Proof.
  intros w id item vector metadata. step. intros Hget Hlen.
  injection Hget as Hget. unfold Dict.contains. rewrite Hget. simpl.
  destruct vector as [v|]; simpl.
  - rewrite (Hlen v eq_refl), Z.eqb_refl. simpl.
    destruct metadata as [m|]; simpl;
      rewrite ?get_mutate_same, ?keys_mutate, Hget; repeat split.
  - destruct metadata as [m|]; simpl;
      rewrite ?get_mutate_same, ?keys_mutate, Hget; repeat split.
    now destruct item.
Qed.

Lemma update_replaces_witness :
  outcome (get "x" sample_world)
  = Return (Some (VectorItem.init "x" [1%R; 0%R] None))
  /\ (forall v, Some [0%R; 1%R] = Some v
                -> len v = embedding_dim (store sample_world))
  /\ outcome (get "x" (exec (update "x" (Some [0%R; 1%R]) None)
                         sample_world))
     = Return (Some (VectorItem.init "x" [0%R; 1%R] None)).
Proof.
  assert (H1 : outcome (get "x" sample_world)
               = Return (Some (VectorItem.init "x" [1%R; 0%R] None)))
    by reflexivity.
  assert (H2 : forall v, Some [0%R; 1%R] = Some v
                         -> len v = embedding_dim (store sample_world))
    by (intros v E; injection E as <-; reflexivity).
  split; [exact H1|]. split; [exact H2|].
  exact (proj1 (proj2 (update_replaces sample_world "x" _
                         (Some [0%R; 1%R]) None H1 H2))).
Defined.

(** X11. A [delete] of a stored id returns [True], removes the record, so
    that [get] finds nothing and the count drops by one, and publishes one
    event of type ["delete"]. *)
Theorem delete_removes :
  forall (w : World) (id : string) (item : VectorItem.t),
    unique_ids w ->
    outcome (get id w) = Return (Some item) ->
    outcome (delete id w) = Return true
    /\ outcome (get id (exec (delete id) w)) = Return None
    /\ outcome (count (exec (delete id) w))
       = Return (len (_items (store w)) - 1)%Z
    /\ published (exec (delete id) w)
       = published w ++ [{| event_type := "delete";
                            data := IdData id;
                            receivers := _observers (store w) |}].
Proof.
  intros w id item. unfold unique_ids. step. intros Hnd Hget.
  injection Hget as Hget.
  assert (Hc : Dict.contains id (_items (store w)) = true)
    by (unfold Dict.contains; now rewrite Hget).
  rewrite Hc. simpl. repeat split.
  - now rewrite get_del_same.
  - f_equal. unfold len. rewrite <- (length_del_present _ _ _ Hc). lia.
Qed.

Lemma sample_world_unique_ids : unique_ids sample_world.
Proof.
  unfold unique_ids. simpl.
  repeat constructor; simpl; intuition discriminate.
Qed.

Lemma delete_removes_witness :
  unique_ids sample_world
  /\ outcome (get "y" sample_world)
     = Return (Some (VectorItem.init "y" [1%R; 0%R] None))
  /\ outcome (count (exec (delete "y") sample_world)) = Return 2%Z.
Proof.
  assert (H : outcome (get "y" sample_world)
              = Return (Some (VectorItem.init "y" [1%R; 0%R] None)))
    by reflexivity.
  split; [exact sample_world_unique_ids|]. split; [exact H|].
  exact (proj1 (proj2 (proj2
    (delete_removes sample_world "y" _ sample_world_unique_ids H)))).
Defined.

(** X12. A [delete] after a successful [add] of an id that was not stored
    brings the records back to what they were, in the same order. *)
Theorem add_then_delete_restores :
  forall (w : World) (id : string) (vector : Vector)
         (metadata : option Metadata),
    outcome (get id w) = Return None ->
    outcome (add id vector metadata w) = Return true ->
    outcome (delete id (exec (add id vector metadata) w)) = Return true
    /\ _items (store (exec (delete id) (exec (add id vector metadata) w)))
       = _items (store w).
Proof.
  intros w id vector metadata. step. intros Hget. injection Hget as Hget.
  destruct (len vector =? embedding_dim (store w))%Z; simpl;
    [|discriminate].
  destruct (len (_items (store w)) >=? max_items (config w))%Z; simpl;
    [discriminate|].
  intros _. unfold Dict.contains. rewrite get_set_same. simpl.
  split; [reflexivity|]. now apply del_set_absent.
Qed.

Lemma add_then_delete_restores_witness :
  outcome (get "n" sample_world) = Return None
  /\ outcome (add "n" [0%R; 1%R] None sample_world) = Return true
  /\ _items (store (exec (delete "n")
                      (exec (add "n" [0%R; 1%R] None) sample_world)))
     = _items (store sample_world).
Proof.
  assert (H1 : outcome (get "n" sample_world) = Return None)
    by reflexivity.
  assert (H2 : outcome (add "n" [0%R; 1%R] None sample_world) = Return true)
    by reflexivity.
  split; [exact H1|]. split; [exact H2|].
  exact (proj2 (add_then_delete_restores sample_world "n" [0%R; 1%R] None
                  H1 H2)).
Defined.

(** ** Further invariants *)

Lemma evolves_refl w : evolves w w.
Proof.
  repeat split; exists []; now rewrite app_nil_r.
Qed.

Lemma evolves_trans w1 w2 w3 : evolves w1 w2 -> evolves w2 w3 -> evolves w1 w3.
Proof.
  intros (Hd1 & Hs1 & [e1 He1] & [o1 Ho1]) (Hd2 & Hs2 & [e2 He2] & [o2 Ho2]).
  repeat split; try congruence.
  - exists (e1 ++ e2). now rewrite He2, He1, app_assoc.
  - exists (o1 ++ o2). now rewrite Ho2, Ho1, app_assoc.
Qed.

Ltac evolve_now :=
  repeat split; simpl;
  first [ now (exists []; rewrite app_nil_r)
        | now (eexists; reflexivity)
        | now (eexists; rewrite <- app_assoc; reflexivity) ].

Lemma evolves_add id vector metadata w :
  evolves w (exec (add id vector metadata) w)
  /\ config (exec (add id vector metadata) w) = config w.
Proof.
  step. destruct (len vector =? embedding_dim (store w))%Z; simpl.
  - destruct (len (_items (store w)) >=? max_items (config w))%Z; simpl;
      split; try reflexivity; evolve_now.
  - split; [apply evolves_refl | reflexivity].
Qed.

Lemma evolves_update id vector metadata w :
  evolves w (exec (update id vector metadata) w)
  /\ config (exec (update id vector metadata) w) = config w.
Proof.
  step. destruct (Dict.contains id (_items (store w))); simpl.
  - destruct vector as [v|]; simpl.
    + destruct (len v =? embedding_dim (store w))%Z; simpl.
      * destruct metadata; simpl; split; try reflexivity; evolve_now.
      * split; [apply evolves_refl | reflexivity].
    + destruct metadata; simpl; split; try reflexivity; evolve_now.
  - split; [apply evolves_refl | reflexivity].
Qed.

Lemma evolves_delete id w :
  evolves w (exec (delete id) w) /\ config (exec (delete id) w) = config w.
Proof.
  step. destruct (Dict.contains id (_items (store w))); simpl.
  - split; try reflexivity; evolve_now.
  - split; [apply evolves_refl | reflexivity].
Qed.

Lemma insert_item_world item w :
  snd (insert_item item w) = w
  \/ exists id vector,
       item_id item = Some id /\ item_vector item = Some vector
       /\ snd (insert_item item w) = exec (add id vector (item_metadata item)) w.
Proof.
  rewrite insert_item_outcome.
  destruct (item_id item) as [id|]; [|now left].
  destruct (item_vector item) as [vector|]; [|now left].
  right. now exists id, vector.
Qed.

Lemma evolves_attempts items :
  forall w, evolves w (snd (attempts items w))
            /\ config (snd (attempts items w)) = config w.
Proof.
  induction items as [|item items IH]; intros w; simpl.
  - split; [apply evolves_refl | reflexivity].
  - pose proof (insert_item_world item w) as Hitem.
    destruct (insert_item item w) as [o w1]. simpl in Hitem.
    specialize (IH w1). destruct (attempts items w1) as [rest w2].
    simpl in *. destruct IH as [Hev Hcfg].
    destruct Hitem as [->|(id & vector & _ & _ & ->)].
    + now split.
    + destruct (evolves_add id vector (item_metadata item) w) as [Hev1 Hc1].
      split; [now apply (evolves_trans _ _ _ Hev1) | congruence].
Qed.

Lemma evolves_run c w :
  evolves w (run c w)
  /\ (keeps_config c = true -> config (run c w) = config w).
Proof.
  destruct c; simpl.
  - split; [|reflexivity]. unfold exec. step. evolve_now.
  - destruct (evolves_add id vector metadata w). auto.
  - unfold exec. destruct (batch_add_runs items w) as [report ->]. simpl.
    destruct (evolves_attempts items w). auto.
  - destruct (evolves_update id vector metadata w). auto.
  - destruct (evolves_delete id w). auto.
  - unfold exec. rewrite query_reads. simpl.
    split; [apply evolves_refl | reflexivity].
  - split; [|reflexivity]. unfold exec. step. evolve_now.
  - split; [evolve_now | discriminate].
Qed.

(** X13. Whatever is done with a store or with the configuration object,
    the store keeps its embedding dimension and its strategy, and its
    history only grows: the events published so far and the observers
    subscribed so far stay, in their order, in front of the new ones.  No
    method of the store changes the configuration object. *)
Theorem store_history_grows :
  forall (c : Call) (w : World),
    evolves w (run c w)
    /\ (keeps_config c = true -> config (run c w) = config w).
Proof. intros c w. apply evolves_run. Qed.

Lemma store_history_grows_witness :
  keeps_config (CallDelete "x") = true
  /\ embedding_dim (store (run (CallDelete "x") sample_world)) = 2%Z
  /\ config (run (CallDelete "x") sample_world) = config sample_world.
Proof.
  assert (H : keeps_config (CallDelete "x") = true) by reflexivity.
  split; [exact H|].
  destruct (store_history_grows (CallDelete "x") sample_world)
    as [[Hd _] Hc].
  split; [exact Hd | exact (Hc H)].
Defined.

Lemma within_capacity_add id vector metadata w :
  within_capacity w -> within_capacity (exec (add id vector metadata) w).
Proof.
  unfold within_capacity. step. intros Hcap.
  destruct (len vector =? embedding_dim (store w))%Z; simpl; [|exact Hcap].
  destruct (len (_items (store w)) >=? max_items (config w))%Z eqn:E;
    simpl; [exact Hcap|].
  assert (Hlt : (len (_items (store w)) < max_items (config w))%Z).
  { unfold Z.geb in E.
    destruct (Z.compare_spec (len (_items (store w)))
                (max_items (config w))); try discriminate; lia. }
  unfold len in *.
  pose proof (length_set_le _ id (VectorItem.init id vector metadata)
                (_items (store w))).
  lia.
Qed.

Lemma within_capacity_attempts items :
  forall w, within_capacity w -> within_capacity (snd (attempts items w)).
Proof.
  induction items as [|item items IH]; intros w Hcap; simpl.
  - exact Hcap.
  - pose proof (insert_item_world item w) as Hitem.
    destruct (insert_item item w) as [o w1]. simpl in Hitem.
    specialize (IH w1). destruct (attempts items w1) as [rest w2].
    simpl in *. apply IH.
    destruct Hitem as [->|(id & vector & _ & _ & ->)]; [exact Hcap|].
    now apply within_capacity_add.
Qed.

(** X14. As long as the configuration object is left alone, a store that
    holds no more than [max_items] records never comes to hold more,
    whichever methods are called, batches included. *)
Theorem capacity_is_kept :
  forall (c : Call) (w : World),
    keeps_config c = true ->
    within_capacity w -> within_capacity (run c w).
Proof.
  intros c w Hc Hcap. destruct c; simpl; try discriminate.
  - exact Hcap.
  - now apply within_capacity_add.
  - unfold exec. destruct (batch_add_runs items w) as [report ->]. simpl.
    now apply within_capacity_attempts.
  - revert Hcap. unfold within_capacity. step. intros Hcap.
    destruct (Dict.contains id (_items (store w))); simpl; [|exact Hcap].
    destruct vector as [v|]; simpl.
    + destruct (len v =? embedding_dim (store w))%Z; simpl; [|exact Hcap].
      destruct metadata; simpl; unfold len in *;
        rewrite ?length_mutate; exact Hcap.
    + destruct metadata; simpl; unfold len in *;
        rewrite ?length_mutate; exact Hcap.
  - revert Hcap. unfold within_capacity. step. intros Hcap.
    destruct (Dict.contains id (_items (store w))); simpl; [|exact Hcap].
    unfold len in *. pose proof (length_del_le _ id (_items (store w))).
    lia.
  - unfold exec. rewrite query_reads. exact Hcap.
  - revert Hcap. unfold within_capacity. step. unfold len. simpl. lia.
Qed.

Lemma capacity_is_kept_witness :
  keeps_config (CallAdd "b" [0%R; 1%R] None) = true
  /\ within_capacity full_world
  /\ within_capacity (run (CallAdd "b" [0%R; 1%R] None) full_world).
Proof.
  assert (H1 : keeps_config (CallAdd "b" [0%R; 1%R] None) = true)
    by reflexivity.
  assert (H2 : within_capacity full_world)
    by (unfold within_capacity, len; simpl; lia).
  split; [exact H1|]. split; [exact H2|].
  exact (capacity_is_kept (CallAdd "b" [0%R; 1%R] None) full_world H1 H2).
Defined.

(** X15. In every state that a store reaches from its construction, by
    any sequence of method calls and of changes of the configuration
    object, every stored vector has the length [embedding_dim] and no id
    is stored twice. *)
Theorem reachable_store_invariant :
  forall w : World, reachable w -> well_formed w /\ unique_ids w.
Proof.
  intros w Hw. split.
  - now apply reachable_well_formed.
  - now apply reachable_unique_ids.
Qed.

Lemma sample_world_reachable : reachable sample_world.
Proof.
  unfold sample_world.
  apply (reachable_run (CallAdd "z" [0%R; 1%R] None)).
  apply (reachable_run (CallAdd "y" [1%R; 0%R] None)).
  apply (reachable_run (CallAdd "x" [1%R; 0%R] None)).
  apply reachable_init.
Qed.

Lemma reachable_store_invariant_witness :
  reachable sample_world /\ well_formed sample_world
  /\ unique_ids sample_world.
Proof.
  split; [exact sample_world_reachable|].
  exact (reachable_store_invariant sample_world sample_world_reachable).
Defined.

(** ** Further properties of queries *)

Section DictMembers.
Variable V : Type.
Implicit Types (d : Dict.t V) (k : string) (v : V).

Lemma get_in k v d : Dict.get k d = Some v -> In (k, v) d.
Proof.
  induction d as [|[k0 v0] d IH]; simpl.
  - discriminate.
  - destruct (String.eqb_spec k0 k) as [->|Hne].
    + intros E. injection E as ->. now left.
    + intros E. right. now apply IH.
Qed.

Lemma in_get k v d :
  NoDup (Dict.keys d) -> In (k, v) d -> Dict.get k d = Some v.
Proof.
  induction d as [|[k0 v0] d IH]; simpl; intros Hnd Hin.
  - contradiction.
  - inversion Hnd as [|? ? Hnotin Hnd']; subst.
    destruct Hin as [E|Hin].
    + injection E as -> ->. now rewrite String.eqb_refl.
    + destruct (String.eqb_spec k0 k) as [->|Hne].
      * exfalso. apply Hnotin. unfold Dict.keys.
        change k with (fst (k, v)). now apply in_map.
      * now apply IH.
Qed.
End DictMembers.

Section Scan.
Variable s : SimilarityStrategy.
Variable threshold : R.
Variable query_vector : Vector.
Variable filter : option (Metadata -> bool).

(** Every entry that the loop adds is the entry of a record it went
    through. *)
Lemma scan_sound (all : Dict.t VectorItem.t) :
  forall items acc results,
    scan s threshold query_vector filter items acc = Return results ->
    (forall kv, In kv items -> In kv all) ->
    (forall r, In r acc ->
       exists id item, In (id, item) all
                       /\ entry_of s query_vector filter id item r) ->
    forall r, In r results ->
      exists id item, In (id, item) all
                      /\ entry_of s query_vector filter id item r.
Proof.
  induction items as [|[id item] items IH]; simpl; intros acc results E Hsub Hacc.
  - injection E as <-. exact Hacc.
  - destruct (rejected filter (VectorItem.metadata item)) eqn:Erej.
    + eapply IH; eauto.
    + destruct (calculate query_vector (VectorItem.vector item))
        as [similarity|e] eqn:Ecalc; simpl in E; [|discriminate].
      eapply IH; [exact E | auto |].
      destruct (Rge_bool similarity threshold); [|exact Hacc].
      intros r Hin. apply in_app_or in Hin. destruct Hin as [Hin|[<-|[]]].
      * now apply Hacc.
      * exists id, item. split; [apply Hsub; now left|].
        repeat split; assumption.
Qed.

(** The loop drops nothing that it has collected, and collects the entry
    of every record that passes the filter and reaches the threshold. *)
Lemma scan_complete :
  forall items acc results,
    scan s threshold query_vector filter items acc = Return results ->
    (forall r, In r acc -> In r results)
    /\ (forall id item similarity,
          In (id, item) items ->
          rejected filter (VectorItem.metadata item) = false ->
          @calculate s query_vector (VectorItem.vector item)
          = Return similarity ->
          (similarity >= threshold)%R ->
          In {| QueryResult.id := id;
                QueryResult.similarity := similarity;
                QueryResult.metadata := VectorItem.metadata item |}
             results).
Proof.
  induction items as [|[id item] items IH]; simpl; intros acc results E.
  - injection E as <-. split; [auto | intros ? ? ? []].
  - destruct (rejected filter (VectorItem.metadata item)) eqn:Erej.
    + destruct (IH _ _ E) as [Hacc Hitems]. split; [exact Hacc|].
      intros id' item' sim [Eq|Hin] Hrej Hcalc Hge.
      * injection Eq as <- <-. congruence.
      * eapply Hitems; eauto.
    + destruct (calculate query_vector (VectorItem.vector item))
        as [similarity|e] eqn:Ecalc; simpl in E; [|discriminate].
      destruct (IH _ _ E) as [Hacc Hitems]. split.
      * intros r Hin. apply Hacc.
        destruct (Rge_bool similarity threshold); [|exact Hin].
        apply in_or_app. now left.
      * intros id' item' sim [Eq|Hin] Hrej Hcalc Hge.
        -- injection Eq as <- <-.
           rewrite Ecalc in Hcalc. injection Hcalc as <-.
           apply Hacc. apply Rge_bool_true in Hge. rewrite Hge.
           apply in_or_app. right. now left.
        -- eapply Hitems; eauto.
Qed.

Lemma scan_length :
  forall items acc results,
    scan s threshold query_vector filter items acc = Return results ->
    (length results <= length acc + length items)%nat.
Proof.
  induction items as [|[id item] items IH]; simpl; intros acc results E.
  - injection E as <-. lia.
  - destruct (rejected filter (VectorItem.metadata item)).
    + apply IH in E. lia.
    + destruct (calculate query_vector (VectorItem.vector item))
        as [similarity|e]; simpl in E; [|discriminate].
      apply IH in E.
      destruct (Rge_bool similarity threshold);
        rewrite ?length_app in E; simpl in E; lia.
Qed.
End Scan.

(** What [query] returns, when it returns: the world as it was, and the
    first entries of the sorted list of the loop. *)
Lemma query_returns query_vector top_k filter w results w' :
  query query_vector top_k filter w = (Return results, w') ->
  w' = w
  /\ len query_vector = embedding_dim (store w)
  /\ exists scanned,
       scan (similarity_strategy (store w)) (similarity_threshold (config w))
         query_vector filter (_items (store w)) [] = Return scanned
       /\ results = slice_to (sort_reverse scanned) top_k.
Proof.
  rewrite query_reads. intros E. injection E as E <-.
  split; [reflexivity|].
  destruct (Z.eqb_spec (len query_vector) (embedding_dim (store w)))
    as [Hq|Hq]; [|discriminate].
  split; [exact Hq|].
  destruct (scan _ _ _ _ _ _) as [scanned|e]; simpl in E; [|discriminate].
  injection E as <-. now exists scanned.
Qed.

Lemma In_firstn {A : Type} (l : list A) n x : In x (firstn n l) -> In x l.
Proof.
  revert l. induction n as [|n IH]; intros [|y l]; simpl; try tauto.
  intros [H|H]; auto.
Qed.

Lemma slice_to_incl {A : Type} (l : list A) stop x :
  In x (slice_to l stop) -> In x l.
Proof.
  unfold slice_to. destruct (stop <? 0)%Z; apply In_firstn.
Qed.

Lemma slice_to_all {A : Type} (l : list A) stop :
  (len l <= stop)%Z -> slice_to l stop = l.
Proof.
  unfold slice_to, len. intros H.
  destruct (Z.ltb_spec stop 0); [lia|].
  apply firstn_all2. lia.
Qed.

(** X16. Every entry that [query] returns is the entry of a stored record:
    [get] on its id returns a record that passes the filter, the metadata
    of the entry are those of the record, and its score is the one the
    strategy gives to the query vector and the vector of the record. *)
Theorem query_results_from_store :
  forall (w w' : World) (query_vector : Vector) (top_k : Z)
         (filter : option (Metadata -> bool))
         (results : list QueryResult.t),
    unique_ids w ->
    query query_vector top_k filter w = (Return results, w') ->
    forall r, In r results ->
      exists item,
        outcome (get (QueryResult.id r) w) = Return (Some item)
        /\ entry_of (similarity_strategy (store w)) query_vector filter
             (QueryResult.id r) item r.
Proof.
  intros w w' query_vector top_k filter results Hnd Hq r Hin.
  apply query_returns in Hq.
  destruct Hq as (_ & _ & scanned & Hscan & ->).
  apply slice_to_incl in Hin.
  apply (Permutation_in _ (sort_reverse_perm scanned)) in Hin.
  destruct (scan_sound _ _ _ _ (_items (store w)) _ _ _ Hscan
              (fun kv H => H) (fun r (H : In r []) => match H with end)
              r Hin) as (id & item & Hitem & Hentry).
  assert (Hid : QueryResult.id r = id) by apply Hentry.
  exists item. split.
  - step. f_equal. rewrite Hid. now apply in_get.
  - rewrite Hid. exact Hentry.
Qed.

Lemma query_results_from_store_witness :
  unique_ids sample_world
  /\ query [1%R; 0%R] 1 None sample_world
     = (Return [hit "x" 1], sample_world)
  /\ exists item,
       outcome (get "x" sample_world) = Return (Some item)
       /\ VectorItem.metadata item = [].
Proof.
  split; [exact sample_world_unique_ids|].
  split; [exact sample_query_top_1|].
  destruct (query_results_from_store sample_world sample_world [1%R; 0%R]
              1 None [hit "x" 1] sample_world_unique_ids
              sample_query_top_1 (hit "x" 1) (or_introl eq_refl))
    as (item & Hget & _ & Hmeta & _).
  exists item. split; [exact Hget | now rewrite <- Hmeta].
Defined.

(** X17. A [query] whose [top_k] is at least the number of stored records
    misses nothing: every stored record that passes the filter and whose
    score reaches the threshold has its entry in the result. *)
Theorem query_returns_every_match :
  forall (w w' : World) (query_vector : Vector) (top_k : Z)
         (filter : option (Metadata -> bool))
         (results : list QueryResult.t)
         (id : string) (item : VectorItem.t) (similarity : R),
    query query_vector top_k filter w = (Return results, w') ->
    (len (_items (store w)) <= top_k)%Z ->
    outcome (get id w) = Return (Some item) ->
    rejected filter (VectorItem.metadata item) = false ->
    @calculate (similarity_strategy (store w)) query_vector
      (VectorItem.vector item) = Return similarity ->
    (similarity >= similarity_threshold (config w))%R ->
    In {| QueryResult.id := id;
          QueryResult.similarity := similarity;
          QueryResult.metadata := VectorItem.metadata item |} results.
Proof.
  intros w w' query_vector top_k filter results id item similarity
    Hq Hk Hget Hrej Hcalc Hge.
  apply query_returns in Hq.
  destruct Hq as (_ & _ & scanned & Hscan & ->).
  revert Hget. step. intros Hget. injection Hget as Hget.
  apply get_in in Hget.
  rewrite slice_to_all.
  - apply (Permutation_in _ (Permutation_sym (sort_reverse_perm scanned))).
    apply (proj2 (scan_complete _ _ _ _ _ _ _ Hscan) id item similarity);
      assumption.
  - apply scan_length in Hscan. unfold len in *.
    rewrite sort_reverse_length. simpl in Hscan. lia.
Qed.

Lemma query_returns_every_match_witness :
  query [1%R; 0%R] 3 None sample_world
  = (Return [hit "x" 1; hit "y" 1], sample_world)
  /\ (len (_items (store sample_world)) <= 3)%Z
  /\ In (hit "y" 1) [hit "x" 1; hit "y" 1].
Proof.
  assert (Hq : query [1%R; 0%R] 3 None sample_world
               = (Return [hit "x" 1; hit "y" 1], sample_world))
    by apply sample_query.
  assert (Hk : (len (_items (store sample_world)) <= 3)%Z)
    by (unfold len; simpl; lia).
  split; [exact Hq|]. split; [exact Hk|].
  apply (query_returns_every_match sample_world sample_world [1%R; 0%R] 3
           None [hit "x" 1; hit "y" 1] "y"
           (VectorItem.init "y" [1%R; 0%R] None) 1 Hq Hk).
  - reflexivity.
  - reflexivity.
  - exact cosine_e1_e1.
  - simpl. lra.
Defined.

(** X18. The result of a [query] with a smaller [top_k] is the beginning
    of the result with a larger one: for [0 <= k <= k'], [query] with
    [top_k = k] returns the first [k] entries of what it returns with
    [top_k = k']. *)
Theorem query_prefix :
  forall (w w' : World) (query_vector : Vector) (k k' : Z)
         (filter : option (Metadata -> bool))
         (results' : list QueryResult.t),
    (0 <= k <= k')%Z ->
    query query_vector k' filter w = (Return results', w') ->
    query query_vector k filter w
    = (Return (firstn (Z.to_nat k) results'), w).
Proof.
  intros w w' query_vector k k' filter results' Hk Hq.
  apply query_returns in Hq.
  destruct Hq as (_ & Hlen & scanned & Hscan & ->).
  rewrite query_reads. apply Z.eqb_eq in Hlen. rewrite Hlen, Hscan. simpl.
  do 2 f_equal. unfold slice_to.
  destruct (Z.ltb_spec k 0); [lia|]. destruct (Z.ltb_spec k' 0); [lia|].
  rewrite firstn_firstn. f_equal. lia.
Qed.

Lemma query_prefix_witness :
  (0 <= 1 <= 3)%Z
  /\ query [1%R; 0%R] 3 None sample_world
     = (Return [hit "x" 1; hit "y" 1], sample_world)
  /\ query [1%R; 0%R] 1 None sample_world
     = (Return [hit "x" 1], sample_world).
Proof.
  assert (Hk : (0 <= 1 <= 3)%Z) by lia.
  assert (Hq : query [1%R; 0%R] 3 None sample_world
               = (Return [hit "x" 1; hit "y" 1], sample_world))
    by apply sample_query.
  split; [exact Hk|]. split; [exact Hq|].
  exact (query_prefix sample_world sample_world [1%R; 0%R] 1 3 None
           [hit "x" 1; hit "y" 1] Hk Hq).
Defined.

Lemma with_score_insert_desc x r l :
  with_score x (insert_desc r l) = with_score x (r :: l).
Proof.
  unfold with_score. induction l as [|y l IH]; simpl.
  - reflexivity.
  - destruct (Rlt_bool _ _) eqn:E; simpl; [|reflexivity].
    rewrite IH. simpl. apply Rlt_bool_true in E.
    destruct (Req_bool (QueryResult.similarity r) x) eqn:Er;
      destruct (Req_bool (QueryResult.similarity y) x) eqn:Ey;
      try reflexivity.
    apply Req_bool_true in Er, Ey. lra.
Qed.

Lemma with_score_sort_reverse x l :
  with_score x (sort_reverse l) = with_score x l.
Proof.
  induction l as [|r l IH]; simpl.
  - reflexivity.
  - rewrite with_score_insert_desc. unfold with_score in *. simpl.
    now rewrite IH.
Qed.

Lemma filter_firstn {A : Type} (p : A -> bool) n (l : list A) :
  exists m, List.filter p (firstn n l) = firstn m (List.filter p l).
Proof.
  revert l. induction n as [|n IH]; intros [|y l]; simpl.
  - now exists 0%nat.
  - now exists 0%nat.
  - now exists 0%nat.
  - destruct (IH l) as [m Hm]. destruct (p y).
    + exists (S m). simpl. now rewrite Hm.
    + now exists m.
Qed.

(** X19. Entries of equal score come out of [query] in the order in which
    the loop over the records found them, that is, in the order of
    insertion of their records: for every score, the entries of the result
    with that score are the first ones of the entries of the loop with
    that score. *)
Theorem query_ties_in_insertion_order :
  forall (w w' : World) (query_vector : Vector) (top_k : Z)
         (filter : option (Metadata -> bool))
         (results : list QueryResult.t) (x : R),
    query query_vector top_k filter w = (Return results, w') ->
    exists scanned m,
      query_scan query_vector filter w = (Return scanned, w)
      /\ with_score x results = firstn m (with_score x scanned).
Proof.
  intros w w' query_vector top_k filter results x Hq.
  apply query_returns in Hq.
  destruct Hq as (_ & _ & scanned & Hscan & ->).
  unfold slice_to.
  destruct (filter_firstn
              (fun r => Req_bool (QueryResult.similarity r) x)
              (if (top_k <? 0)%Z
               then Z.to_nat (len (sort_reverse scanned) + top_k)
               else Z.to_nat top_k)
              (sort_reverse scanned)) as [m Hm].
  exists scanned, m. split.
  - now rewrite query_scan_reads, Hscan.
  - rewrite <- (with_score_sort_reverse x scanned). unfold with_score.
    rewrite <- Hm. now destruct (top_k <? 0)%Z.
Qed.

Lemma query_ties_in_insertion_order_witness :
  query [1%R; 0%R] 1 None sample_world
  = (Return [hit "x" 1], sample_world)
  /\ exists scanned m,
       query_scan [1%R; 0%R] None sample_world
       = (Return scanned, sample_world)
       /\ with_score 1 [hit "x" 1] = firstn m (with_score 1 scanned).
Proof.
  split; [exact sample_query_top_1|].
  exact (query_ties_in_insertion_order sample_world sample_world
           [1%R; 0%R] 1 None [hit "x" 1] 1 sample_query_top_1).
Defined.

(** X20. [query] only reads: whatever it returns or raises, the records,
    the observers, the published events and the configuration are as
    before.  With a query vector that has not the length [embedding_dim]
    it raises a [ValueError], also on an empty store. *)
Theorem query_only_reads :
  forall (w : World) (query_vector : Vector) (top_k : Z)
         (filter : option (Metadata -> bool)),
    world (query query_vector top_k filter w) = w
    /\ (len query_vector <> embedding_dim (store w) ->
        outcome (query query_vector top_k filter w)
        = Raise (ValueError ("Query vector dimension must be "
                             ++ fmt (embedding_dim (store w))))).
Proof.
  intros w query_vector top_k filter. rewrite query_reads.
  split; [reflexivity|].
  intros Hne. apply Z.eqb_neq in Hne. simpl. now rewrite Hne.
Qed.

Lemma query_only_reads_witness :
  len [1%R] <> embedding_dim (store (ChromaVectorDB_init None 128 None))
  /\ outcome (query [1%R] 5 None (ChromaVectorDB_init None 128 None))
     = Raise (ValueError "Query vector dimension must be 128").
Proof.
  assert (H : len [1%R]
              <> embedding_dim (store (ChromaVectorDB_init None 128 None)))
    by (unfold len; simpl; lia).
  split; [exact H|].
  exact (proj2 (query_only_reads (ChromaVectorDB_init None 128 None)
                  [1%R] 5 None) H).
Defined.

(** ** Further properties of batches *)

(** The report of [batch_add], in terms of the attempts. *)
Lemma batch_add_eq items w :
  batch_add items w
  = (Return {| success_count :=
                 len (List.filter succeeded (fst (attempts items w)));
               failed_count := len (failures (fst (attempts items w)));
               failed_items := failures (fst (attempts items w)) |},
     snd (attempts items w)).
Proof.
  unfold batch_add. erewrite bind_return by apply batch_add_loop.
  reflexivity.
Qed.

Lemma attempts_app xs ys w :
  attempts (xs ++ ys) w
  = (fst (attempts xs w) ++ fst (attempts ys (snd (attempts xs w))),
     snd (attempts ys (snd (attempts xs w)))).
Proof.
  revert w. induction xs as [|x xs IH]; intros w; simpl.
  - now destruct (attempts ys w).
  - destruct (insert_item x w) as [o w1]. rewrite IH.
    destruct (attempts xs w1) as [l1 w2]. simpl.
    reflexivity.
Qed.

Lemma failures_app l1 l2 : failures (l1 ++ l2) = failures l1 ++ failures l2.
Proof.
  induction l1 as [|[item [b|e]] l1 IH]; simpl; [reflexivity | exact IH |].
  now rewrite IH.
Qed.

(** X23. A batch in two parts: [batch_add] on a list [xs ++ ys] does what
    [batch_add] on [xs] followed by [batch_add] on [ys] does, and its
    report adds up the counts and chains the failures of the two. *)
Theorem batch_add_app :
  forall (xs ys : list BatchItem) (w w1 w2 : World) (r1 r2 : BatchReport),
    batch_add xs w = (Return r1, w1) ->
    batch_add ys w1 = (Return r2, w2) ->
    batch_add (xs ++ ys) w
    = (Return {| success_count := success_count r1 + success_count r2;
                 failed_count := failed_count r1 + failed_count r2;
                 failed_items := failed_items r1 ++ failed_items r2 |},
       w2).
Proof.
  intros xs ys w w1 w2 r1 r2. rewrite !batch_add_eq.
  intros E1. injection E1 as <- <-. intros E2. injection E2 as <- <-.
  rewrite attempts_app. simpl.
  rewrite filter_app, failures_app. unfold len.
  rewrite !length_app, !Nat2Z.inj_add. reflexivity.
Qed.

Lemma batch_add_app_witness :
  let item id v :=
    {| item_id := Some id; item_vector := Some v; item_metadata := None |} in
  let w := ChromaVectorDB_init None 2 None in
  exists w1 w2,
    batch_add [item "a" [1%R; 0%R]] w
    = (Return {| success_count := 1; failed_count := 0;
                 failed_items := [] |}, w1)
    /\ batch_add [item "b" [1%R]] w1
       = (Return {| success_count := 0; failed_count := 1;
                    failed_items :=
                      [{| failed_id := Some "b";
                          error := "Vector dimension must be 2" |}] |}, w2)
    /\ outcome (batch_add [item "a" [1%R; 0%R]; item "b" [1%R]] w)
       = Return {| success_count := 1; failed_count := 1;
                   failed_items :=
                     [{| failed_id := Some "b";
                         error := "Vector dimension must be 2" |}] |}.
Proof.
  intros item w.
  exists (exec (batch_add [item "a" [1%R; 0%R]]) w).
  exists (exec (batch_add [item "b" [1%R]])
            (exec (batch_add [item "a" [1%R; 0%R]]) w)).
  assert (H1 : batch_add [item "a" [1%R; 0%R]] w
               = (Return {| success_count := 1; failed_count := 0;
                            failed_items := [] |},
                  exec (batch_add [item "a" [1%R; 0%R]]) w))
    by reflexivity.
  assert (H2 : batch_add [item "b" [1%R]]
                 (exec (batch_add [item "a" [1%R; 0%R]]) w)
               = (Return {| success_count := 0; failed_count := 1;
                            failed_items :=
                              [{| failed_id := Some "b";
                                  error := "Vector dimension must be 2" |}] |},
                  exec (batch_add [item "b" [1%R]])
                    (exec (batch_add [item "a" [1%R; 0%R]]) w)))
    by reflexivity.
  split; [exact H1|]. split; [exact H2|].
  change [item "a" [1%R; 0%R]; item "b" [1%R]]
    with ([item "a" [1%R; 0%R]] ++ [item "b" [1%R]]).
  rewrite (batch_add_app _ _ _ _ _ _ _ H1 H2). reflexivity.
Defined.

(** The items of a batch whose insertion returns. *)
Lemma attempts_of_successes items :
  forall w,
    attempts (map fst (List.filter succeeded (fst (attempts items w)))) w
    = (List.filter succeeded (fst (attempts items w)),
       snd (attempts items w)).
Proof.
  induction items as [|item items IH]; intros w; simpl.
  - reflexivity.
  - destruct (insert_item item w) as [[b|e] w1] eqn:E.
    + specialize (IH w1). destruct (attempts items w1) as [rest w2].
      simpl in *. rewrite E, IH. reflexivity.
    + apply insert_item_raise_unchanged in E. subst w1.
      specialize (IH w). destruct (attempts items w) as [rest w2].
      simpl in *. exact IH.
Qed.

(** X24. On a store to which no observer is subscribed, the items of a
    batch that fail leave no trace: the records, the published events and
    the rest of the world after [batch_add] are those after [batch_add] on
    the items that succeeded alone.  (With observers, an exception of an
    observer leaves [add] after the record is stored; the observers of the
    model do not raise.) *)
Theorem batch_failures_leave_no_trace :
  forall (items : list BatchItem) (w : World),
    _observers (store w) = [] ->
    exec (batch_add items) w
    = exec (batch_add
              (map fst (List.filter succeeded (fst (attempts items w))))) w
    /\ outcome
         (batch_add
            (map fst (List.filter succeeded (fst (attempts items w)))) w)
       = Return {| success_count :=
                     len (List.filter succeeded (fst (attempts items w)));
                   failed_count := 0;
                   failed_items := [] |}.
Proof.
  intros items w _. unfold exec. rewrite !batch_add_eq.
  rewrite attempts_of_successes. simpl. split; [reflexivity|].
  assert (Hf : forall l, failures (List.filter succeeded l) = []).
  { induction l as [|[it [b|e]] l IH]; simpl; auto. }
  assert (Hs : forall l : list (BatchItem * Outcome bool),
             List.filter succeeded (List.filter succeeded l)
             = List.filter succeeded l).
  { induction l as [|[it [b|e]] l IH]; simpl; auto. now rewrite IH. }
  now rewrite Hf, Hs.
Qed.

Lemma batch_failures_leave_no_trace_witness :
  let good :=
    {| item_id := Some "a"; item_vector := Some [1%R; 0%R];
       item_metadata := None |} in
  let bad :=
    {| item_id := Some "b"; item_vector := Some [1%R];
       item_metadata := None |} in
  let w := ChromaVectorDB_init None 2 None in
  _observers (store w) = []
  /\ exec (batch_add [bad; good; bad]) w = exec (batch_add [good]) w.
Proof.
  intros good bad w.
  assert (H : _observers (store w) = []) by reflexivity.
  split; [exact H|].
  exact (proj1 (batch_failures_leave_no_trace [bad; good; bad] w H)).
Defined.

Lemma attempts_all_valid items :
  forall w,
    Forall (valid_item (embedding_dim (store w))) items ->
    (len (_items (store w)) + len items <= max_items (config w))%Z ->
    List.filter succeeded (fst (attempts items w)) = fst (attempts items w)
    /\ failures (fst (attempts items w)) = []
    /\ length (fst (attempts items w)) = length items.
Proof.
  induction items as [|item items IH]; intros w Hvalid Hcap; simpl.
  - auto.
  - inversion Hvalid as [|? ? [Hid (vector & Hvec & Hlen)] Hrest]; subst.
    rewrite insert_item_outcome, Hvec.
    destruct (item_id item) as [id|]; [|congruence].
    assert (Hlt : (len (_items (store w)) < max_items (config w))%Z)
      by (unfold len in *; simpl in Hcap; lia).
    rewrite (add_success id vector (item_metadata item) w Hlen Hlt).
    match goal with
    | |- context [attempts items ?w1] => specialize (IH w1)
    end.
    destruct IH as (Hf & He & Hl).
    + exact Hrest.
    + simpl. unfold len in *. simpl in Hcap.
      pose proof (length_set_le _ id
                    (VectorItem.init id vector (item_metadata item))
                    (_items (store w))).
      lia.
    + destruct (attempts items _) as [rest w2]. simpl in *.
      now rewrite Hf, He, Hl.
Qed.

(** X25. A batch in which every item has an id and a vector of the length
    [embedding_dim], and which fits into what is left of the capacity, is
    stored as a whole: every item succeeds and the list of failures is
    empty. *)
Theorem batch_add_all_valid :
  forall (items : list BatchItem) (w : World),
    Forall (valid_item (embedding_dim (store w))) items ->
    (len (_items (store w)) + len items <= max_items (config w))%Z ->
    outcome (batch_add items w)
    = Return {| success_count := len items;
                failed_count := 0;
                failed_items := [] |}.
Proof.
  intros items w Hvalid Hcap. rewrite batch_add_eq. simpl.
  destruct (attempts_all_valid items w Hvalid Hcap) as (-> & -> & Hl).
  unfold len. now rewrite Hl.
Qed.

Lemma batch_add_all_valid_witness :
  let items :=
    [{| item_id := Some "a"; item_vector := Some [1%R; 0%R];
        item_metadata := None |};
     {| item_id := Some "a"; item_vector := Some [0%R; 1%R];
        item_metadata := None |}] in
  let w := ChromaVectorDB_init None 2 None in
  Forall (valid_item (embedding_dim (store w))) items
  /\ (len (_items (store w)) + len items <= max_items (config w))%Z
  /\ outcome (batch_add items w)
     = Return {| success_count := 2; failed_count := 0;
                 failed_items := [] |}.
Proof.
  intros items w.
  assert (H1 : Forall (valid_item (embedding_dim (store w))) items).
  { repeat constructor; simpl; try discriminate; eexists;
      (split; [reflexivity|reflexivity]). }
  assert (H2 : (len (_items (store w)) + len items
                <= max_items (config w))%Z)
    by (unfold len; simpl; lia).
  split; [exact H1|]. split; [exact H2|].
  exact (batch_add_all_valid items w H1 H2).
Defined.

(** ** The loop of the script *)

Lemma best_loop_spec query_vector items :
  forall best_id best_similarity result_id result,
    SimpleChroma.best_loop items query_vector best_id best_similarity
    = Return (result_id, result) ->
    (best_similarity <= result)%R
    /\ (forall id vector,
          In (id, vector) items ->
          exists similarity,
            SimpleChroma.calculate_similarity query_vector vector
            = Return similarity
            /\ (similarity <= result)%R)
    /\ ((result_id = best_id /\ result = best_similarity)
        \/ exists id vector,
             result_id = Some id /\ In (id, vector) items
             /\ SimpleChroma.calculate_similarity query_vector vector
                = Return result).
Proof.
  induction items as [|[id vector] items IH]; simpl;
    intros best_id best_similarity result_id result E.
  - injection E as <- <-. split; [lra|]. split; [intros ? ? []|].
    now left.
  - destruct (SimpleChroma.calculate_similarity query_vector vector)
      as [similarity|e] eqn:Ecalc; simpl in E; [|discriminate].
    destruct (Rlt_bool best_similarity similarity) eqn:Elt.
    + apply Rlt_bool_true in Elt.
      destruct (IH _ _ _ _ E) as (Hle & Hall & Hres).
      split; [lra|]. split.
      * intros id' vector' [Eq|Hin].
        -- injection Eq as <- <-. exists similarity. now split.
        -- exact (Hall _ _ Hin).
      * right. destruct Hres as [[-> ->]|(id' & vector' & -> & Hin & Hc)].
        -- exists id, vector. repeat split; auto.
        -- exists id', vector'. repeat split; auto.
    + apply Rlt_bool_false in Elt.
      destruct (IH _ _ _ _ E) as (Hle & Hall & Hres).
      split; [lra|]. split.
      * intros id' vector' [Eq|Hin].
        -- injection Eq as <- <-. exists similarity. split; [auto|lra].
        -- exact (Hall _ _ Hin).
      * destruct Hres as [[-> ->]|(id' & vector' & -> & Hin & Hc)].
        -- now left.
        -- right. exists id', vector'. repeat split; auto.
Qed.

(** X26. The search for the best match in the script: when it ends, no
    stored vector has a dot product with the query vector above
    [best_similarity]; [best_id], when it is set, is the id of a stored
    vector whose dot product is [best_similarity], and it is left unset
    only if no dot product exceeds the initial [-999999]. *)
Theorem find_best_is_maximum :
  forall (database : Dict.t Vector) (query_vector : Vector)
         (best_id : option string) (best_similarity : R),
    SimpleChroma.find_best database query_vector
    = Return (best_id, best_similarity) ->
    (forall id vector,
       In (id, vector) database ->
       exists similarity,
         SimpleChroma.calculate_similarity query_vector vector
         = Return similarity
         /\ (similarity <= best_similarity)%R)
    /\ match best_id with
       | Some id =>
           exists vector,
             In (id, vector) database
             /\ SimpleChroma.calculate_similarity query_vector vector
                = Return best_similarity
       | None => best_similarity = (-999999)%R
       end.
Proof.
  intros database query_vector best_id best_similarity E.
  destruct (best_loop_spec _ _ _ _ _ _ E) as (_ & Hall & Hres).
  split; [exact Hall|].
  destruct Hres as [[-> ->]|(id & vector & -> & Hin & Hc)].
  - reflexivity.
  - now exists vector.
Qed.

Lemma find_best_is_maximum_witness :
  SimpleChroma.find_best [("doc_1", [1%R]); ("doc_2", [2%R])] [1%R]
  = Return (Some "doc_2", (1 * 2 + 0)%R)
  /\ exists vector,
       In ("doc_2", vector) [("doc_1", [1%R]); ("doc_2", [2%R])]
       /\ SimpleChroma.calculate_similarity [1%R] vector
          = Return (1 * 2 + 0)%R.
Proof.
  assert (E : SimpleChroma.find_best
                [("doc_1", [1%R]); ("doc_2", [2%R])] [1%R]
              = Return (Some "doc_2", (1 * 2 + 0)%R)).
  { unfold SimpleChroma.find_best. simpl.
    unfold SimpleChroma.calculate_similarity, np_dot. simpl.
    replace (Rlt_bool (-999999) (1 * 1 + 0)) with true
      by (symmetry; apply Rlt_bool_true; lra).
    replace (Rlt_bool (1 * 1 + 0) (1 * 2 + 0)) with true
      by (symmetry; apply Rlt_bool_true; lra).
    reflexivity. }
  split; [exact E|].
  exact (proj2 (find_best_is_maximum _ _ _ _ E)).
Defined.

(** ** Further properties of the events *)

Lemma published_add id vector metadata w :
  _observers (store (exec (add id vector metadata) w)) = _observers (store w)
  /\ exists events,
       published (exec (add id vector metadata) w) = published w ++ events
       /\ Forall (sent "add" (_observers (store w))) events
       /\ length events
          = match outcome (add id vector metadata w) with
            | Return _ => 1%nat
            | Raise _ => 0%nat
            end.
Proof.
  step. destruct (len vector =? embedding_dim (store w))%Z; simpl.
  - destruct (len (_items (store w)) >=? max_items (config w))%Z; simpl.
    + split; [reflexivity|]. exists []. now rewrite app_nil_r.
    + split; [reflexivity|]. eexists. split; [reflexivity|].
      split; [|reflexivity]. now repeat constructor.
  - split; [reflexivity|]. exists []. now rewrite app_nil_r.
Qed.

Lemma published_attempts items :
  forall w,
    _observers (store (snd (attempts items w))) = _observers (store w)
    /\ exists events,
         published (snd (attempts items w)) = published w ++ events
         /\ Forall (sent "add" (_observers (store w))) events
         /\ length events
            = length (List.filter succeeded (fst (attempts items w))).
Proof.
  induction items as [|item items IH]; intros w; simpl.
  - split; [reflexivity|]. exists []. now rewrite app_nil_r.
  - pose proof (insert_item_outcome item w) as Hitem.
    destruct (insert_item item w) as [o w1] eqn:E.
    assert (H1 : _observers (store w1) = _observers (store w)
                 /\ exists events,
                      published w1 = published w ++ events
                      /\ Forall (sent "add" (_observers (store w))) events
                      /\ length events
                         = match o with
                           | Return _ => 1%nat
                           | Raise _ => 0%nat
                           end).
    { destruct (item_id item) as [id|], (item_vector item) as [vector|];
        try (injection Hitem as -> ->; split; [reflexivity|];
             exists []; now rewrite app_nil_r).
      pose proof (published_add id vector (item_metadata item) w) as Hadd.
      unfold exec, outcome in Hadd. rewrite <- Hitem in Hadd. exact Hadd. }
    destruct H1 as (Hobs1 & ev1 & Hp1 & Hs1 & Hl1).
    specialize (IH w1). destruct (attempts items w1) as [rest w2].
    simpl in *. destruct IH as (Hobs2 & ev2 & Hp2 & Hs2 & Hl2).
    split; [congruence|].
    exists (ev1 ++ ev2). split; [now rewrite Hp2, Hp1, app_assoc|].
    split.
    + apply Forall_app. split; [exact Hs1|]. now rewrite <- Hobs1.
    + rewrite length_app, Hl1, Hl2.
      unfold succeeded at 2. simpl. now destruct o.
Qed.

(** X27. What a call publishes: the events published before stay in
    front, and every new event has the type of the call and went to all
    the observers subscribed when the call was made, in the order of
    their subscription.  [add_observer], [query] and a change of the
    configuration publish nothing. *)
Theorem published_by_call :
  forall (c : Call) (w : World),
    exists events,
      published (run c w) = published w ++ events
      /\ Forall (sent (event_type_of c) (_observers (store w))) events
      /\ (event_type_of c = "" -> events = []).
Proof.
  intros c w. destruct c; simpl.
  - exists []. unfold exec. step. rewrite app_nil_r. repeat split; auto.
  - destruct (published_add id vector metadata w)
      as (_ & events & Hp & Hs & _).
    exists events. repeat split; auto; discriminate.
  - unfold exec. destruct (batch_add_runs items w) as [report ->]. simpl.
    destruct (published_attempts items w) as (_ & events & Hp & Hs & _).
    exists events. repeat split; auto; discriminate.
  - unfold exec. step.
    destruct (Dict.contains id (_items (store w))); simpl.
    + destruct vector as [v|]; simpl.
      * destruct (len v =? embedding_dim (store w))%Z; simpl.
        -- destruct metadata; simpl; eexists;
             (split; [reflexivity|]); (split; [|discriminate]);
             now repeat constructor.
        -- exists []. rewrite app_nil_r. repeat split; auto; discriminate.
      * destruct metadata; simpl; eexists;
          (split; [reflexivity|]); (split; [|discriminate]);
          now repeat constructor.
    + exists []. rewrite app_nil_r. repeat split; auto; discriminate.
  - unfold exec. step.
    destruct (Dict.contains id (_items (store w))); simpl.
    + eexists. split; [reflexivity|]. split; [|discriminate].
      now repeat constructor.
    + exists []. rewrite app_nil_r. repeat split; auto; discriminate.
  - exists []. unfold exec. rewrite query_reads. simpl.
    rewrite app_nil_r. repeat split; auto.
  - unfold exec. step. eexists. split; [reflexivity|].
    split; [|discriminate]. now repeat constructor.
  - exists []. rewrite app_nil_r. repeat split; auto.
Qed.

Lemma published_by_call_witness :
  event_type_of (CallQuery [1%R; 0%R] 1 None) = ""
  /\ published (run (CallQuery [1%R; 0%R] 1 None) sample_world)
     = published sample_world.
Proof.
  assert (H : event_type_of (CallQuery [1%R; 0%R] 1 None) = "")
    by reflexivity.
  split; [exact H|].
  destruct (published_by_call (CallQuery [1%R; 0%R] 1 None) sample_world)
    as (events & Hp & _ & He).
  rewrite Hp, (He H). apply app_nil_r.
Defined.
(** ** Double precision: the divisor of the cosine strategy *)

Section Binary64.
Local Open Scope Z_scope.

Lemma digits2_pos_size p : digits2_pos p = Pos.size p.
Proof. induction p; simpl; congruence. Qed.

(** The number of binary digits of a positive integer. *)
Lemma Zdigits2_log2 m : 0 < m -> Zdigits2 m = Z.log2 m + 1.
Proof.
  destruct m as [|p|p]; try lia. intros _. simpl.
  rewrite digits2_pos_size. destruct p; simpl; lia.
Qed.

Lemma shr_1_div2 mrs :
  0 <= shr_m mrs -> shr_m (shr_1 mrs) = Z.div2 (shr_m mrs).
Proof.
  destruct mrs as [m r s]. simpl.
  destruct m as [|[p|p|]|p]; simpl; try reflexivity; lia.
Qed.

Lemma pow2_xI p : 2 ^ Z.pos p~1 = 2 * (2 ^ Z.pos p * 2 ^ Z.pos p).
Proof.
  replace (Z.pos p~1) with (1 + Z.pos p + Z.pos p) by lia.
  rewrite !Z.pow_add_r by lia. rewrite Z.pow_1_r. lia.
Qed.

Lemma pow2_xO p : 2 ^ Z.pos p~0 = 2 ^ Z.pos p * 2 ^ Z.pos p.
Proof.
  replace (Z.pos p~0) with (Z.pos p + Z.pos p) by lia.
  now rewrite Z.pow_add_r by lia.
Qed.

(** Shifting a mantissa to the right [p] times divides it by [2 ^ p]. *)
Lemma iter_shr_1 p :
  forall mrs,
    0 <= shr_m mrs ->
    shr_m (SpecFloat.iter_pos shr_1 p mrs) = shr_m mrs / 2 ^ Zpos p.
Proof.
  induction p as [p IH|p IH|]; intros mrs Hm.
  - rewrite pow2_xI. simpl.
    assert (Hp : 0 < 2 ^ Z.pos p) by (apply Z.pow_pos_nonneg; lia).
    assert (H1 : 0 <= shr_m (shr_1 mrs)).
    { rewrite shr_1_div2 by assumption. rewrite Z.div2_div.
      apply Z.div_pos; lia. }
    assert (H2 : 0 <= shr_m (SpecFloat.iter_pos shr_1 p (shr_1 mrs))).
    { rewrite IH by assumption. apply Z.div_pos; lia. }
    rewrite IH, IH, shr_1_div2, Z.div2_div by assumption.
    rewrite !Z.div_div by lia. reflexivity.
  - rewrite pow2_xO. simpl.
    assert (Hp : 0 < 2 ^ Z.pos p) by (apply Z.pow_pos_nonneg; lia).
    assert (H2 : 0 <= shr_m (SpecFloat.iter_pos shr_1 p mrs)).
    { rewrite IH by assumption. apply Z.div_pos; lia. }
    rewrite IH, IH by assumption.
    rewrite !Z.div_div by lia. reflexivity.
  - simpl. rewrite shr_1_div2, Z.div2_div by assumption. reflexivity.
Qed.

Lemma shr_m_of_loc m l : shr_m (shr_record_of_loc m l) = m.
Proof. destruct l as [|[]]; reflexivity. Qed.

(** The exponent of the format binary64. *)
Lemma fexp64 x : fexp prec emax x = Z.max (x - 53) (-1074).
Proof. reflexivity. Qed.

Lemma div_pow2_pos m n : 0 < m -> 0 <= n <= Z.log2 m -> 0 < m / 2 ^ n.
Proof.
  intros Hm Hn. apply Z.div_str_pos. split.
  - apply Z.pow_pos_nonneg; lia.
  - apply Z.le_trans with (2 ^ Z.log2 m).
    + apply Z.pow_le_mono_r; lia.
    + apply Z.log2_spec. assumption.
Qed.

Lemma log2_div_pow2 m n :
  0 < m -> 0 <= n <= Z.log2 m -> Z.log2 (m / 2 ^ n) = Z.log2 m - n.
Proof.
  intros Hm Hn. rewrite <- Z.shiftr_div_pow2 by lia.
  rewrite Z.log2_shiftr by assumption. lia.
Qed.

(** Bringing a mantissa to the exponent of the format keeps it positive,
    and keeps the sum of its number of digits and of its exponent, as
    long as the number is not below the smallest positive one. *)
Lemma shr_fexp_keeps m e l :
  0 < m -> -1073 <= Zdigits2 m + e ->
  0 < shr_m (fst (shr_fexp prec emax m e l))
  /\ Zdigits2 (shr_m (fst (shr_fexp prec emax m e l)))
     + snd (shr_fexp prec emax m e l) = Zdigits2 m + e.
Proof.
  intros Hm Hd. unfold shr_fexp, shr. rewrite fexp64.
  pose proof (Z.log2_nonneg m) as Hlog.
  rewrite (Zdigits2_log2 m Hm) in *.
  destruct (Z.max (Z.log2 m + 1 + e - 53) (-1074) - e) as [|p|p] eqn:En;
    simpl.
  - rewrite shr_m_of_loc. split; [assumption|]. now rewrite Zdigits2_log2.
  - assert (Hn : 0 <= Z.pos p <= Z.log2 m) by lia.
    rewrite iter_shr_1 by (rewrite shr_m_of_loc; lia).
    rewrite shr_m_of_loc.
    pose proof (div_pow2_pos m (Z.pos p) Hm Hn) as Hpos.
    split; [assumption|].
    rewrite Zdigits2_log2 by assumption.
    rewrite log2_div_pow2 by assumption. lia.
  - rewrite shr_m_of_loc. split; [assumption|]. now rewrite Zdigits2_log2.
Qed.

Lemma round_nearest_even_bounds m l :
  m <= round_nearest_even m l <= m + 1.
Proof.
  destruct l as [|[]]; simpl; try lia. destruct (Z.even m); lia.
Qed.

(** Rounding to the format does not turn a number of a magnitude of at
    least [2 ^ (k - 1)] into zero, nor into a smaller magnitude, when [k]
    is within the range of the format. *)
Lemma binary_round_aux_big k sx m e l :
  0 < m -> -1073 <= k -> k <= Zdigits2 m + e ->
  big k (binary_round_aux prec emax sx m e l).
Proof.
  intros Hm Hk Hd. unfold binary_round_aux.
  destruct (shr_fexp_keeps m e l Hm ltac:(lia)) as [H1 E1].
  destruct (shr_fexp prec emax m e l) as [mrs1 e1]. simpl in H1, E1.
  pose proof (round_nearest_even_bounds (shr_m mrs1)
                (loc_of_shr_record mrs1)) as Hr.
  set (m2 := round_nearest_even (shr_m mrs1) (loc_of_shr_record mrs1)) in *.
  assert (Hm2 : 0 < m2) by lia.
  assert (Hd2 : Zdigits2 (shr_m mrs1) <= Zdigits2 m2).
  { rewrite !Zdigits2_log2 by lia.
    pose proof (Z.log2_le_mono (shr_m mrs1) m2). lia. }
  destruct (shr_fexp_keeps m2 e1 loc_Exact Hm2 ltac:(lia)) as [H3 E3].
  destruct (shr_fexp prec emax m2 e1 loc_Exact) as [mrs3 e3].
  simpl in H3, E3.
  destruct (shr_m mrs3) as [|m3|m3] eqn:Em3; try lia.
  destruct (e3 <=? emax - prec); unfold big; [lia | exact I].
Qed.

(** The product of two numbers of a magnitude of at least [2 ^ -537] is
    not zero. *)
Lemma SFmul_big a b :
  big (-536) a -> big (-536) b -> big (-1073) (SF64mul a b).
Proof.
  destruct a as [sa|sa| |sa ma ea], b as [sb|sb| |sb mb eb];
    cbn -[Z.add Zdigits2 binary_round_aux]; try tauto.
  intros Ha Hb. apply binary_round_aux_big; try lia.
  pose proof (Z.log2_mul_below (Z.pos ma) (Z.pos mb)) as Hlog.
  rewrite Zdigits2_log2 in * by lia.
  rewrite Pos2Z.inj_mul. lia.
Qed.

Lemma log2_sqrt a :
  0 < a -> 0 < Z.sqrt a /\ Z.log2 a / 2 <= Z.log2 (Z.sqrt a).
Proof.
  intros Ha. pose proof (Z.log2_nonneg a) as Hl.
  set (h := Z.log2 a / 2).
  assert (Hh : 0 <= h) by (apply Z.div_pos; lia).
  assert (Hle : 2 ^ h <= Z.sqrt a).
  { apply Z.sqrt_le_square; [lia | apply Z.pow_nonneg; lia |].
    rewrite <- Z.pow_add_r by lia.
    apply Z.le_trans with (2 ^ Z.log2 a).
    - apply Z.pow_le_mono_r; [lia|]. unfold h.
      Z.to_euclidean_division_equations. lia.
    - apply Z.log2_spec. assumption. }
  assert (Hp : 0 < 2 ^ h) by (apply Z.pow_pos_nonneg; lia).
  split; [lia|].
  rewrite <- (Z.log2_pow2 h) by assumption.
  apply Z.log2_le_mono. assumption.
Qed.

(** The square root of a number of the format is a zero, only for a zero,
    or has a magnitude of at least [2 ^ -537]: the square root of the
    smallest positive number, [2 ^ -1074]. *)
Lemma SFsqrt_big x :
  valid_binary x = true ->
  match SF64sqrt x with
  | S754_zero _ => True
  | y => big (-536) y
  end.
Proof.
  destruct x as [s|[|]| |[|] m e];
    cbn -[Z.add Z.sub Z.mul Zdigits2 binary_round_aux SFsqrt_core_binary
          SpecFloat.bounded]; try tauto.
  unfold SpecFloat.bounded, canonical_mantissa. rewrite fexp64.
  change (Z.pos (digits2_pos m)) with (Zdigits2 (Z.pos m)).
  intros Hv. apply andb_prop in Hv. destruct Hv as [Hc _].
  apply Z.eqb_eq in Hc.
  assert (He : -1074 <= e) by lia.
  unfold SFsqrt_core_binary. rewrite fexp64.
  set (e' := Z.min (Z.max (Z.div2 (Zdigits2 (Z.pos m) + e + 1) - 53)
                      (-1074))
                   (Z.div2 e)).
  assert (Hs : 0 <= e - 2 * e').
  { unfold e'. rewrite (Z.div2_div e).
    Z.to_euclidean_division_equations. lia. }
  set (m' := match e - 2 * e' with
             | 0 => Z.pos m
             | Z.pos _ => Z.shiftl (Z.pos m) (e - 2 * e')
             | Z.neg _ => 0
             end).
  assert (Hm' : m' = Z.pos m * 2 ^ (e - 2 * e')).
  { unfold m'. destruct (e - 2 * e') as [|p|p] eqn:Es.
    - lia.
    - now rewrite Z.shiftl_mul_pow2 by lia.
    - lia. }
  assert (Hpos : 0 < m').
  { rewrite Hm'. apply Z.mul_pos_pos; [lia|].
    apply Z.pow_pos_nonneg; lia. }
  assert (Hlog : Z.log2 m' = Z.log2 (Z.pos m) + (e - 2 * e')).
  { rewrite Hm'. rewrite Z.log2_mul_pow2 by lia. lia. }
  pose proof (Z.sqrtrem_sqrt m') as Hq.
  destruct (Z.sqrtrem m') as [q r]. simpl in Hq. subst q.
  destruct (log2_sqrt m' Hpos) as [Hqpos Hqlog].
  pose proof (Z.log2_nonneg (Z.pos m)) as Hlm.
  assert (Hbig : -536 <= Zdigits2 (Z.sqrt m') + e').
  { rewrite Zdigits2_log2 by assumption. rewrite Hlog in Hqlog.
    revert Hqlog. Z.to_euclidean_division_equations. lia. }
  pose proof (binary_round_aux_big (-536) false (Z.sqrt m') e'
                (if r =? 0 then loc_Exact
                 else loc_Inexact (if r <=? Z.sqrt m' then Lt else Gt))
                Hqpos ltac:(lia) Hbig) as H.
  destruct (binary_round_aux _ _ _ _ _ _); simpl in *; auto.
Qed.
End Binary64.

(** [x == 0] holds of the two zeros only. *)
Lemma eqb_zero (x : float) :
  (x =? 0)%float
  = match Prim2SF x with S754_zero _ => true | _ => false end.
Proof.
  rewrite FloatAxioms.eqb_spec.
  change (Prim2SF 0%float) with (S754_zero false).
  destruct (Prim2SF x) as [s|[|]| |[|] m e]; reflexivity.
Qed.

(** In double precision the product of two square roots that are not zero
    is not zero: it does not underflow. *)
Lemma sqrt_product_nonzero (x y : float) :
  (PrimFloat.sqrt x =? 0)%float = false ->
  (PrimFloat.sqrt y =? 0)%float = false ->
  (PrimFloat.sqrt x * PrimFloat.sqrt y =? 0)%float = false.
Proof.
  rewrite !eqb_zero, mul_spec, !sqrt_spec.
  pose proof (SFsqrt_big (Prim2SF x) (Prim2SF_valid x)) as Hx.
  pose proof (SFsqrt_big (Prim2SF y) (Prim2SF_valid y)) as Hy.
  destruct (SF64sqrt (Prim2SF x)) as [sa|sa| |sa ma ea] eqn:Ea;
    try discriminate;
    destruct (SF64sqrt (Prim2SF y)) as [sb|sb| |sb mb eb] eqn:Eb;
    try discriminate; intros _ _;
    try reflexivity.
  pose proof (SFmul_big _ _ Hx Hy) as H.
  destruct (SF64mul _ _); simpl in H; tauto || reflexivity.
Qed.

Lemma float_np_dot_equal_lengths dot (a b : Float64.Vector) :
  length a = length b -> Float64.np_dot dot a b = Return (dot a b).
Proof.
  intros H. unfold Float64.np_dot, len. rewrite H. now rewrite Z.eqb_refl.
Qed.

(** C8. In double precision, and whatever the order in which [np.dot] adds
    up the products, the cosine strategy returns a number on every pair of
    vectors of equal length.  When one of the norms compares equal to zero
    it returns [0.0].  Otherwise it returns the quotient of the dot product
    by the product of the norms, and this product does not compare equal
    to zero: the division is never done with a zero divisor. *)
Theorem cosine_divisor_never_zero :
  forall (dot : Float64.Vector -> Float64.Vector -> float)
         (a b : Float64.Vector),
    length a = length b ->
    let norm1 := Float64.np_linalg_norm dot a in
    let norm2 := Float64.np_linalg_norm dot b in
    (exists r : float, Float64.CosineSimilarity_calculate dot a b = Return r)
    /\ ((norm1 =? 0)%float = true \/ (norm2 =? 0)%float = true ->
        Float64.CosineSimilarity_calculate dot a b = Return 0%float)
    /\ ((norm1 =? 0)%float = false -> (norm2 =? 0)%float = false ->
        (norm1 * norm2 =? 0)%float = false
        /\ Float64.CosineSimilarity_calculate dot a b
           = Return (dot a b / (norm1 * norm2))%float).
Proof.
  intros dot a b Hlen norm1 norm2.
  unfold Float64.CosineSimilarity_calculate.
  rewrite (float_np_dot_equal_lengths dot a b Hlen). simpl.
  fold norm1 norm2.
  split; [|split].
  - destruct ((norm1 =? 0)%float || (norm2 =? 0)%float); eauto.
  - intros [H|H]; rewrite H; [reflexivity|].
    now rewrite orb_true_r.
  - intros H1 H2. rewrite H1, H2. simpl. split; [|reflexivity].
    now apply sqrt_product_nonzero.
Qed.

(** A norm that underflows to zero, and two norms that are the smallest
    that a norm can be without being zero. *)
Lemma cosine_divisor_never_zero_witness :
  (length [0x1p-600%float; 0%float] = length [1%float; 0%float]
   /\ Float64.CosineSimilarity_calculate Float64.dot_sequential
        [0x1p-600%float; 0%float] [1%float; 0%float]
      = Return 0%float)
  /\ (length [0x1p-537%float] = length [0x1p-537%float]
      /\ (Float64.np_linalg_norm Float64.dot_sequential [0x1p-537%float]
          * Float64.np_linalg_norm Float64.dot_sequential [0x1p-537%float]
          =? 0)%float = false
      /\ Float64.CosineSimilarity_calculate Float64.dot_sequential
           [0x1p-537%float] [0x1p-537%float]
         = Return 1%float).
Proof.
  split.
  - assert (H : length [0x1p-600%float; 0%float]
                = length [1%float; 0%float]) by reflexivity.
    split; [exact H|].
    apply (proj1 (proj2 (cosine_divisor_never_zero Float64.dot_sequential
                           [0x1p-600%float; 0%float] [1%float; 0%float]
                           H))).
    left. vm_compute. reflexivity.
  - assert (H : length [0x1p-537%float] = length [0x1p-537%float])
      by reflexivity.
    split; [exact H|].
    destruct (proj2 (proj2 (cosine_divisor_never_zero
                              Float64.dot_sequential
                              [0x1p-537%float] [0x1p-537%float] H)))
      as [Hd Hr].
    + vm_compute. reflexivity.
    + vm_compute. reflexivity.
    + split; [exact Hd|]. rewrite Hr. vm_compute. reflexivity.
Defined.

(** ** Filters that can raise *)

Lemma for_in_ext {A S : Type} (body1 body2 : S -> A -> M S) :
  (forall acc x w, body1 acc x w = body2 acc x w) ->
  forall xs acc w, for_in xs acc body1 w = for_in xs acc body2 w.
Proof.
  intros Hext xs. induction xs as [|x xs IH]; intros acc w; simpl.
  - reflexivity.
  - unfold bind. rewrite Hext.
    destruct (body2 acc x w) as [[acc'|e] w']; [apply IH | reflexivity].
Qed.

Lemma query_scan_callable_returning query_vector filter w :
  query_scan_callable query_vector (returning filter) w
  = query_scan query_vector filter w.
Proof.
  unfold query_scan_callable, query_scan. unfold bind at 1 3, get_self.
  apply for_in_ext. intros acc [id item] w2.
  unfold rejected_by, returning, rejected, bind, lift, ret.
  destruct filter as [f|]; reflexivity.
Qed.

(** With a filter that returns, [query_callable] is [query]. *)
Lemma query_callable_returning query_vector top_k filter w :
  query_callable query_vector top_k (returning filter) w
  = query query_vector top_k filter w.
Proof.
  unfold query_callable, query, bind, get_self, raise_if, ret, raise.
  destruct (negb (len query_vector =? embedding_dim (store w))%Z);
    cbn beta iota; [reflexivity|].
  now rewrite query_scan_callable_returning.
Qed.

Example query_filter_raises :
  query_callable [1%R; 0%R] 5
    (Some (fun m => match Dict.get "category" m with
                    | Some v => Return true
                    | None => Raise (KeyError "category")
                    end))
    sample_world
  = (Raise (KeyError "category"), sample_world).
Proof. reflexivity. Qed.


